(** * oled_96: the SSD1306 line driver of [oled96.c], embedded in Rocq

    The driver keeps four pieces of process-wide state: the I2C file handle
    [file_i2c], the write cursor [iScreenOffset], the 1024-byte mirror
    [ucScreen] of the display memory and the glyph table [ucFont], which is
    rotated in place once by [RotateFont90].  The embedding passes that state
    explicitly, records every [write()] on the bus as one transmission, and
    keeps C's [int] and [unsigned char] arithmetic as [Z] with the
    wrap-around written out. *)

From Stdlib Require Import ZArith Lia.
From stdpp Require Import base numbers list list_numbers.

Local Open Scope Z_scope.

(** ** Machine arithmetic *)

(** Conversion to [unsigned char]. *)
Definition uchar (z : Z) : Z := z mod 256.

(** Conversion to a 32-bit [int].  Signed overflow is undefined in C; the
    embedding follows the two's-complement wrap-around of the usual targets,
    and the theorems that depend on it say on which inputs no wrap occurs. *)
Definition int_min : Z := - 2 ^ 31.
Definition int_max : Z := 2 ^ 31 - 1.
Definition to_int (z : Z) : Z := (z + 2 ^ 31) mod 2 ^ 32 - 2 ^ 31.
Definition in_int (z : Z) : Prop := int_min <= z <= int_max.

(** ** Byte arrays *)

(** [a[k]]; a read outside the array (undefined in C) yields 0. *)
Definition load (a : list Z) (k : Z) : Z := default 0 (a !! Z.to_nat k).

(** [a[k] = v] for [0 <= k]; a store past the end of the array is dropped. *)
Definition store (a : list Z) (k : Z) (v : Z) : list Z := <[Z.to_nat k := v]> a.

(** [memcpy(&dst[off], src, len src)] for [0 <= off]. *)
Definition memcpy (dst : list Z) (off : Z) (src : list Z) : list Z :=
  list_inserts (Z.to_nat off) src dst.

(** [&a[off]]: the array seen through a pointer to its element [off]. *)
Definition ptr (a : list Z) (off : Z) : list Z := drop (Z.to_nat off) a.

(** [for (i = 0; i < n; i++) body], threading the state [s]. *)
Definition for_loop {S : Type} (n : Z) (body : Z -> S -> S) (s : S) : S :=
  foldl (fun s i => body i s) s (seqZ 0 n).

(** ** Font rotation: [RotateFont90] *)

Module Font.

(** Offset of the 16x32 font in [ucFont], and the offset the rotation adds
    to it when it reads a band. *)
Definition large_base : Z := 9728.
Definition large_skew : Z := 12.

(** One pass of the innermost loop body:
    [c >>= 1; if (b & ucMask) c |= 0x80;] with [c] an [unsigned char]. *)
Definition shift_in (c b ucMask : Z) : Z :=
  let c := uchar (Z.shiftr c 1) in
  if Z.eqb (Z.land b ucMask) 0 then c else uchar (Z.lor c 128).

(** [for (x = 0; x < 8; x++)] of the 8x8 font: the byte [c] built from
    [s[0..7]] under [ucMask]. *)
Definition small_row (s : list Z) (ucMask : Z) : Z :=
  for_loop 8 (fun x c => shift_in c (load s x) ucMask) 0.

(** [for (y = 0; y < 8; y++)] of the 8x8 font; the state is
    [(ucMask, ucTemp)]. *)
Definition small_glyph (s ucTemp : list Z) : list Z :=
  snd (for_loop 8 (fun y '(ucMask, ucTemp) =>
         let c := small_row s ucMask in
         (uchar (Z.shiftl ucMask 1), store ucTemp (7 - y) c))
       (1, ucTemp)).

(** The body of [for (i = 0; i < 256; i++)]; the state is
    [(ucFont, ucTemp)].  All reads through [s] precede the [memcpy] through
    [s], so [s] is the glyph as it is when the pass starts. *)
Definition small_body (i : Z) (st : list Z * list Z) : list Z * list Z :=
  let '(ucFont, ucTemp) := st in
  let s := ptr ucFont (i * 8) in
  let ucTemp := small_glyph s ucTemp in
  (memcpy ucFont (i * 8) (take 8 ucTemp), ucTemp).

Definition rotate_small (st : list Z * list Z) : list Z * list Z :=
  for_loop 256 small_body st.

(** Index in [ucFont] of [s[k]] for glyph [i], band [j] of the 16x32 font:
    [s = &ucFont[9728 + 12 + (i*64) + (j*16)]]. *)
Definition large_src (i j k : Z) : Z :=
  large_base + large_skew + i * 64 + j * 16 + k.

(** [for (x = 0; x < 8; x++)] of the 16x32 font: the bytes [(c, c2)] built
    from [s[0], s[2], ..] and [s[1], s[3], ..]. *)
Definition large_row (s : list Z) (ucMask : Z) : Z * Z :=
  for_loop 8 (fun x '(c, c2) =>
    (shift_in c (load s (x * 2)) ucMask,
     shift_in c2 (load s (x * 2 + 1)) ucMask)) (0, 0).

(** [for (y = 0; y < 8; y++)] of band [j] of glyph [i], with
    [d = &ucTemp[j*16]]. *)
Definition large_band (ucFont : list Z) (i j : Z) (ucTemp : list Z) : list Z :=
  let s := ptr ucFont (large_src i j 0) in
  let d := j * 16 in
  snd (for_loop 8 (fun y '(ucMask, ucTemp) =>
         let cc := large_row s ucMask in
         (uchar (Z.shiftl ucMask 1),
          store (store ucTemp (d + (7 - y)) (fst cc)) (d + (15 - y)) (snd cc)))
       (1, ucTemp)).

(** The body of [for (i = 0; i < 128; i++)], with its
    [for (j = 0; j < 4; j++)]; the font is written only after the four
    bands were read. *)
Definition large_body (i : Z) (st : list Z * list Z) : list Z * list Z :=
  let '(ucFont, ucTemp) := st in
  let ucTemp := for_loop 4 (fun j t => large_band ucFont i j t) ucTemp in
  (memcpy ucFont (large_base + i * 64) (take 64 ucTemp), ucTemp).

Definition rotate_large (st : list Z * list Z) : list Z * list Z :=
  for_loop 128 large_body st.

(** [RotateFont90] started with the local [ucTemp] holding [tmp]. *)
Definition RotateFont90_from (tmp ucFont : list Z) : list Z :=
  fst (rotate_large (rotate_small (ucFont, tmp))).

(** [RotateFont90].  The local [ucTemp[64]] is not initialised by the
    source; every byte of it is written before it is read, and the model
    starts it at zero. *)
Definition RotateFont90 (ucFont : list Z) : list Z :=
  RotateFont90_from (replicate 64 0) ucFont.

(** A font that is zero but for its first byte: glyph 0 of the 8x8 font has
    row 0 equal to [0b00000001]. *)
Definition dot_font : list Z := 1 :: replicate (Z.to_nat 17931) 0.

(** A font that is zero but for byte 0 of glyph 1 of the 16x32 font, at
    table offset [9728 + 64]. *)
Definition skew_font : list Z :=
  replicate (Z.to_nat 9792) 0 ++ 1 :: replicate (Z.to_nat 8139) 0.

End Font.

(** ** The driver state *)

(** [bus] lists the transmissions ([write()] calls on the handle), oldest
    first.  [mirrored] is a ghost field: the [(offset, length)] of every copy
    [oledWriteDataBlock] makes into [ucScreen], oldest first. *)
Record oled := Oled {
  file_i2c : Z;
  iScreenOffset : Z;
  ucScreen : list Z;
  ucFont : list Z;
  bus : list (list Z);
  mirrored : list (Z * Z)
}.

Definition set_file (f : Z) (s : oled) : oled :=
  Oled f (iScreenOffset s) (ucScreen s) (ucFont s) (bus s) (mirrored s).
Definition set_offset (o : Z) (s : oled) : oled :=
  Oled (file_i2c s) o (ucScreen s) (ucFont s) (bus s) (mirrored s).
Definition set_font (f : list Z) (s : oled) : oled :=
  Oled (file_i2c s) (iScreenOffset s) (ucScreen s) f (bus s) (mirrored s).

(** [write(file_i2c, buf, len buf)]; the result is not inspected. *)
Definition bus_write (buf : list Z) (s : oled) : oled :=
  Oled (file_i2c s) (iScreenOffset s) (ucScreen s) (ucFont s)
       (bus s ++ [buf]) (mirrored s).

(** The cache after [memcpy(&ucScreen[off], buf, len buf)].  Bytes that fall
    outside the array (undefined in C) are not recorded in the mirror. *)
Definition mirror_screen (scr : list Z) (off : Z) (buf : list Z) : list Z :=
  if off <? 0 then memcpy scr 0 (drop (Z.to_nat (- off)) buf)
  else memcpy scr off buf.

(** [memcpy(&ucScreen[iScreenOffset], ucBuf, iLen)] of [oledWriteDataBlock];
    the ghost field keeps the requested range. *)
Definition mirror (off : Z) (buf : list Z) (s : oled) : oled :=
  Oled (file_i2c s) (iScreenOffset s) (mirror_screen (ucScreen s) off buf)
       (ucFont s) (bus s) (mirrored s ++ [(off, Z.of_nat (length buf))]).

(** The state before [oledInit]: the statics are zero, nothing was sent. *)
Definition power_on (font : list Z) : oled :=
  Oled 0 0 (replicate 1024 0) font [] [].

Definition FAIL : Z := -1.
Definition OK : Z := 0.

(** ** The driver *)

Definition initbuf : list Z :=
  [0x00; 0xae; 0xa8; 0x3f; 0xd3; 0x00; 0x40; 0xa0; 0xa1; 0xc0; 0xc8;
   0xda; 0x12; 0x81; 0xff; 0xa4; 0xa6; 0xd5; 0x80; 0x8d; 0x14;
   0xaf; 0x20; 0x02].

(** [oledInit].  [fd] is what [open] returns and [rc] what [ioctl] returns;
    both belong to the operating system. *)
Definition oledInit (fd rc : Z) (iAddr : Z) (s : oled) : Z * oled :=
  if fd <? 0 then (FAIL, set_file 0 s)
  else if rc <? 0 then (FAIL, set_file 0 s)
  else
    let s := set_file fd s in
    let s := bus_write initbuf s in
    let s := set_font (Font.RotateFont90 (ucFont s)) s in
    (OK, s).

Definition oledWriteCommand (c : Z) (s : oled) : oled :=
  bus_write [0x00; uchar c] s.

Definition oledWriteCommand2 (c d : Z) (s : oled) : oled :=
  bus_write [0x00; uchar c; uchar d] s.

(** [oledShutdown]; [close] releases the handle. *)
Definition oledShutdown (s : oled) : oled :=
  if file_i2c s =? 0 then s
  else set_file 0 (oledWriteCommand 0xae s).

Definition oledSetContrast (ucContrast : Z) (s : oled) : Z * oled :=
  if file_i2c s =? 0 then (FAIL, s)
  else (OK, oledWriteCommand2 0x81 ucContrast s).

Definition oledSetPosition (x y : Z) (s : oled) : oled :=
  let s := oledWriteCommand (Z.lor 0xb0 y) s in
  let s := oledWriteCommand (Z.lor 0x00 (Z.land x 0xf)) s in
  let s := oledWriteCommand (Z.lor 0x10 (Z.land (Z.shiftr x 4) 0xf)) s in
  set_offset (to_int (to_int (y * 128) + x)) s.

(** [oledWriteDataBlock(ucBuf, iLen)] with [iLen = length ucBuf].  The
    source assembles the transmission in the local [ucTemp[129]], so it is
    defined for blocks of at most 128 bytes; every caller passes 1, 8, 16 or
    128. *)
Definition oledWriteDataBlock (ucBuf : list Z) (s : oled) : oled :=
  let iLen := Z.of_nat (length ucBuf) in
  let s := bus_write (0x40 :: ucBuf) s in
  let s := mirror (iScreenOffset s) ucBuf s in
  set_offset (to_int (iScreenOffset s + iLen)) s.

(** The byte [uc] that [oledSetPixel] computes from the cached byte:
    [uc &= ~(0x1 << (y & 7)); if (ucColor) uc |= (0x1 << (y & 7));]. *)
Definition put_bit (ucOld y ucColor : Z) : Z :=
  let uc := uchar (Z.land ucOld (Z.lnot (Z.shiftl 1 (Z.land y 7)))) in
  if uchar ucColor =? 0 then uc
  else uchar (Z.lor uc (Z.shiftl 1 (Z.land y 7))).

Definition oledSetPixel (x y ucColor : Z) (s : oled) : Z * oled :=
  if file_i2c s =? 0 then (FAIL, s)
  else
    let i := to_int (to_int (Z.shiftr y 3 * 128) + x) in
    if (i <? 0) || (i >? 1023) then (FAIL, s)
    else
      let ucOld := load (ucScreen s) i in
      let uc := put_bit ucOld y ucColor in
      if uc =? ucOld then (OK, s)
      else (OK, oledWriteDataBlock [uc] (oledSetPosition x (Z.shiftr y 3) s)).

(** The [n] bytes at [&a[off]]. *)
Definition block (a : list Z) (off n : Z) : list Z :=
  (fun k => load a (off + k)) <$> seqZ 0 n.

(** One pass of the 16x32 loop of [oledWriteString]; [x] is already in
    pixels. *)
Definition write_large_glyph (x y : Z) (szMsg : list Z) (i : Z) (s : oled) : oled :=
  let g := Font.large_base + uchar (load szMsg i) * 64 in
  let px := to_int (x + to_int (i * 16)) in
  let s := oledSetPosition px y s in
  let s := oledWriteDataBlock (block (ucFont s) g 16) s in
  let s := oledSetPosition px (to_int (y + 1)) s in
  let s := oledWriteDataBlock (block (ucFont s) (g + 16) 16) s in
  let s := oledSetPosition px (to_int (y + 2)) s in
  oledWriteDataBlock (block (ucFont s) (g + 32) 16) s.

(** One pass of the 8x8 loop of [oledWriteString]. *)
Definition write_small_glyph (szMsg : list Z) (i : Z) (s : oled) : oled :=
  oledWriteDataBlock (block (ucFont s) (uchar (load szMsg i) * 8) 8) s.

(** [oledWriteString].  [szMsg] holds the characters before the terminating
    NUL, so [strlen(szMsg)] is its length. *)
Definition oledWriteString (x y : Z) (szMsg : list Z) (bLarge : Z) (s : oled)
  : Z * oled :=
  if file_i2c s =? 0 then (FAIL, s)
  else
    let iLen := to_int (Z.of_nat (length szMsg)) in
    if negb (bLarge =? 0) then
      let iLen := if to_int (iLen + x) >? 8 then to_int (8 - x) else iLen in
      if iLen <? 0 then (FAIL, s)
      else
        let x := to_int (x * 16) in
        (OK, for_loop iLen (write_large_glyph x y szMsg) s)
    else
      let s := oledSetPosition x y s in
      let iLen := if to_int (iLen + x) >? 16 then to_int (16 - x) else iLen in
      if iLen <? 0 then (FAIL, s)
      else (OK, for_loop iLen (write_small_glyph szMsg) s).

Definition oledFill (ucData : Z) (s : oled) : Z * oled :=
  if file_i2c s =? 0 then (FAIL, s)
  else
    let temp := replicate 128 (uchar ucData) in
    (OK, for_loop 8 (fun y s => oledWriteDataBlock temp (oledSetPosition 0 y s)) s).

(** * Vocabulary of the statements *)

(** ** The shape of the rotated font *)

Module FontShape.
Import Font.

(** The inner loop body, with the sampled bit made explicit. *)
Definition shift_bit (c : Z) (b : bool) : Z :=
  let c := uchar (Z.shiftr c 1) in
  if b then uchar (Z.lor c 128) else c.

(** The byte the inner loop builds from the bits sampled at [x = 0..7]. *)
Definition pack (bit : Z -> bool) : Z :=
  for_loop 8 (fun x c => shift_bit c (bit x)) 0.

(** The eight bytes [small_glyph] leaves in [ucTemp[0..7]]. *)
Definition rot8 (s : list Z) : list Z :=
  (fun k => small_row s (2 ^ (7 - k))) <$> seqZ 0 8.

(** The sixteen bytes [large_band] leaves in its window of [ucTemp]. *)
Definition band16 (s : list Z) : list Z :=
  ((fun k => fst (large_row s (2 ^ (7 - k)))) <$> seqZ 0 8) ++
  ((fun k => snd (large_row s (2 ^ (7 - k)))) <$> seqZ 0 8).

(** The 64 bytes assembled in [ucTemp] for glyph [i] of the 16x32 font. *)
Definition rot64 (F : list Z) (i : Z) : list Z :=
  band16 (ptr F (large_src i 0 0)) ++ band16 (ptr F (large_src i 1 0)) ++
  band16 (ptr F (large_src i 2 0)) ++ band16 (ptr F (large_src i 3 0)).

(** After [n] glyphs: the sizes are kept, the font from glyph [n] on is
    untouched, and each glyph [g < n] holds the rows of its rotation. *)
Definition small_inv (F tmp : list Z) (n : Z) (st : list Z * list Z) : Prop :=
  length (fst st) = length F /\
  length (snd st) = length tmp /\
  ptr (fst st) (n * 8) = ptr F (n * 8) /\
  forall g k, 0 <= g < n -> 0 <= k < 8 ->
    load (fst st) (g * 8 + k) = small_row (ptr F (g * 8)) (2 ^ (7 - k)).

(** After [n] glyphs: the sizes are kept, the font below the 16x32 region
    and from glyph [n] on is untouched, and each glyph [g < n] holds the
    bytes assembled for it from the font as it was at the start. *)
Definition large_inv (F : list Z) (n : Z) (st : list Z * list Z) : Prop :=
  length (fst st) = length F /\
  length (snd st) = 64%nat /\
  (forall k, 0 <= k < large_base -> load (fst st) k = load F k) /\
  ptr (fst st) (large_base + n * 64) = ptr F (large_base + n * 64) /\
  forall g k, 0 <= g < n -> 0 <= k < 64 ->
    load (fst st) (large_base + g * 64 + k) = load (rot64 F g) k.

End FontShape.

(** ** Traces and cache writes of the driver *)

(** The three commands of [oledSetPosition]. *)
Definition position_cmds (x y : Z) : list (list Z) :=
  [[0x00; uchar (Z.lor 0xb0 y)];
   [0x00; uchar (Z.lor 0x00 (Z.land x 0xf))];
   [0x00; uchar (Z.lor 0x10 (Z.land (Z.shiftr x 4) 0xf))]].

(** What [oledFill] sends for page [y]. *)
Definition fill_page (v y : Z) : list (list Z) :=
  position_cmds 0 y ++ [0x40 :: replicate 128 v].

Definition fill_body (v : Z) (y : Z) (s : oled) : oled :=
  oledWriteDataBlock (replicate 128 v) (oledSetPosition 0 y s).

(** After [n] pages of [oledFill]: the first [128 n] bytes of the cache hold
    the value, the rest is untouched, and each page was positioned and
    written in turn. *)
Definition fill_inv (v : Z) (s0 : oled) (n : Z) (s : oled) : Prop :=
  file_i2c s = file_i2c s0 /\
  ucFont s = ucFont s0 /\
  (0 < n -> iScreenOffset s = n * 128) /\
  (n = 0 -> iScreenOffset s = iScreenOffset s0) /\
  ucScreen s = replicate (Z.to_nat (n * 128)) v ++ drop (Z.to_nat (n * 128)) (ucScreen s0) /\
  bus s = bus s0 ++ concat (fill_page v <$> seqZ 0 n) /\
  mirrored s = mirrored s0 ++ ((fun y => (y * 128, 128)) <$> seqZ 0 n).

(** [put_bit] as a function of the bit number and of whether the colour is
    zero. *)
Definition put_bit_at (u k : Z) (off : bool) : Z :=
  let uc := uchar (Z.land u (Z.lnot (Z.shiftl 1 k))) in
  if off then uc else uchar (Z.lor uc (Z.shiftl 1 k)).

(** The facts about one byte, one bit and one colour, as a test. *)
Definition put_bit_ok (u k : Z) (off : bool) : bool :=
  Bool.eqb (put_bit_at u k off =? u) (Bool.eqb (Z.testbit u k) (negb off))
  && (put_bit_at (put_bit_at u k off) k off =? put_bit_at u k off)
  && Bool.eqb (Z.testbit (put_bit_at u k off) k) (negb off).

(** The data block of the 8x8 glyph of character [i] of the text. *)
Definition small_burst (font msg : list Z) (i : Z) : list Z :=
  0x40 :: block font (uchar (load msg i) * 8) 8.


(** A data transmission starts with the data introducer. *)
Definition is_data (t : list Z) : bool :=
  match t with
  | h :: _ => h =? 0x40
  | [] => false
  end.

(** The data blocks sent between the states [s] and [s']. *)
Definition data_bursts (s s' : oled) : list (list Z) :=
  List.filter is_data (drop (length (bus s)) (bus s')).

(** The copies into the cache made between the states [s] and [s']. *)
Definition cache_writes (s s' : oled) : list (Z * Z) :=
  drop (length (mirrored s)) (mirrored s').

Definition in_cache (w : Z * Z) : Prop := 0 <= fst w /\ fst w + snd w <= 1024.

(** What one pass of the 16x32 loop sends. *)
Definition large_trace (font : list Z) (x y : Z) (msg : list Z) (i : Z)
  : list (list Z) :=
  let g := Font.large_base + uchar (load msg i) * 64 in
  let px := to_int (x + to_int (i * 16)) in
  position_cmds px y ++ [0x40 :: block font g 16] ++
  position_cmds px (to_int (y + 1)) ++ [0x40 :: block font (g + 16) 16] ++
  position_cmds px (to_int (y + 2)) ++ [0x40 :: block font (g + 32) 16].

(** The three copies one pass of the 16x32 loop makes. *)
Definition large_writes (x y i : Z) : list (Z * Z) :=
  [(y * 128 + (x + i * 16), 16); ((y + 1) * 128 + (x + i * 16), 16);
   ((y + 2) * 128 + (x + i * 16), 16)].

(** A transmission that fits the protocol and the 129-byte buffer of
    [oledWriteDataBlock]: an introducer byte, [0x00] for commands or [0x40]
    for data, followed by 1 to 128 bytes. *)
Definition tx_ok (t : list Z) : bool :=
  match t with
  | h :: body =>
      ((h =? 0x00) || (h =? 0x40))
      && (1 <=? Z.of_nat (length body)) && (Z.of_nat (length body) <=? 128)
  | [] => false
  end.

(** * Verification *)

(** ** Arithmetic and array lemmas *)

Ltac int_consts :=
  unfold in_int, int_min, int_max, to_int in *;
  change (2 ^ 31) with 2147483648 in *;
  change (2 ^ 32) with 4294967296 in *.

Lemma to_int_id z : in_int z -> to_int z = z.
Proof. intros Hz. int_consts. rewrite Z.mod_small; lia. Qed.

Lemma to_int_add_l a b : to_int (to_int a + b) = to_int (a + b).
Proof.
  int_consts. f_equal.
  replace ((a + 2147483648) mod 4294967296 - 2147483648 + b + 2147483648)
    with ((a + 2147483648) mod 4294967296 + b) by lia.
  rewrite Zplus_mod_idemp_l. f_equal. lia.
Qed.

Lemma uchar_range z : 0 <= uchar z < 256.
Proof. unfold uchar. apply Z.mod_pos_bound. lia. Qed.

Lemma uchar_id z : 0 <= z < 256 -> uchar z = z.
Proof. unfold uchar. intros. apply Z.mod_small. lia. Qed.

Lemma for_loop_0 {S : Type} (body : Z -> S -> S) (s : S) : for_loop 0 body s = s.
Proof. reflexivity. Qed.

Lemma for_loop_succ {S : Type} (n : Z) (body : Z -> S -> S) (s : S) :
  0 <= n -> for_loop (n + 1) body s = body n (for_loop n body s).
Proof.
  intros Hn. unfold for_loop.
  rewrite seqZ_app by lia. rewrite foldl_app.
  rewrite (seqZ_cons (0 + n) 1) by lia.
  rewrite (seqZ_nil _ (Z.pred 1)) by lia.
  reflexivity.
Qed.

Lemma for_loop_nat_ind {S : Type} (P : Z -> S -> Prop) (body : Z -> S -> S) (s : S) :
  P 0 s ->
  (forall n t, 0 <= n -> P n t -> P (n + 1) (body n t)) ->
  forall n, 0 <= n -> P n (for_loop n body s).
Proof.
  intros H0 Hstep n Hn. pattern n. apply natlike_ind; [exact H0 | | exact Hn].
  intros k Hk IH. unfold Z.succ. rewrite for_loop_succ by lia.
  apply Hstep; assumption.
Qed.

Lemma load_ptr a off k : 0 <= off -> 0 <= k -> load (ptr a off) k = load a (off + k).
Proof.
  intros. unfold load, ptr. rewrite lookup_drop. do 2 f_equal. lia.
Qed.

Lemma load_memcpy_in dst off src k :
  0 <= off -> off <= k < off + Z.of_nat (length src) ->
  k < Z.of_nat (length dst) ->
  load (memcpy dst off src) k = load src (k - off).
Proof.
  intros. unfold load, memcpy.
  rewrite list_lookup_inserts by lia. do 2 f_equal. lia.
Qed.

Lemma load_memcpy_out dst off src k :
  0 <= off -> 0 <= k -> k < off \/ off + Z.of_nat (length src) <= k ->
  load (memcpy dst off src) k = load dst k.
Proof.
  intros Ho Hk [Hlt | Hge]; unfold load, memcpy.
  - rewrite list_lookup_inserts_lt by lia. reflexivity.
  - rewrite list_lookup_inserts_ge by lia. reflexivity.
Qed.

Lemma length_memcpy dst off src : length (memcpy dst off src) = length dst.
Proof. apply length_inserts. Qed.

Lemma ptr_memcpy_ge dst off src k :
  0 <= off -> off + Z.of_nat (length src) <= k ->
  ptr (memcpy dst off src) k = ptr dst k.
Proof.
  intros. unfold ptr, memcpy. apply list_eq. intros j.
  rewrite !lookup_drop. apply list_lookup_inserts_ge. lia.
Qed.

Lemma ptr_ptr a off k : 0 <= off -> 0 <= k -> ptr (ptr a off) k = ptr a (off + k).
Proof.
  intros. unfold ptr. rewrite drop_drop. f_equal. lia.
Qed.

(** ** Facts about the font rotation *)

Module FontFacts.
Import Font FontShape.

Ltac cases8 x :=
  let H := fresh in
  assert (H : x = 0 \/ x = 1 \/ x = 2 \/ x = 3 \/ x = 4 \/ x = 5 \/ x = 6 \/ x = 7)
    by lia;
  destruct H as [-> | [-> | [-> | [-> | [-> | [-> | [-> | ->]]]]]]].

Lemma land_pow2_eqb b y :
  0 <= y -> (Z.land b (2 ^ y) =? 0) = negb (Z.testbit b y).
Proof.
  intros Hy. destruct (Z.testbit b y) eqn:E; simpl.
  - apply Z.eqb_neq. intros H.
    assert (H0 : Z.testbit (Z.land b (2 ^ y)) y = false)
      by (rewrite H; apply Z.bits_0).
    rewrite Z.land_spec, E, Z.pow2_bits_true in H0 by lia. discriminate.
  - apply Z.eqb_eq. apply Z.bits_inj'. intros n Hn.
    rewrite Z.land_spec, Z.bits_0, Z.pow2_bits_eqb by lia.
    destruct (Z.eqb_spec y n) as [-> | _].
    + rewrite E. reflexivity.
    + apply andb_false_r.
Qed.

Lemma shift_in_pow2 c b y :
  0 <= y -> shift_in c b (2 ^ y) = shift_bit c (Z.testbit b y).
Proof.
  intros Hy. unfold shift_in, shift_bit.
  rewrite land_pow2_eqb by lia. destruct (Z.testbit b y); reflexivity.
Qed.

Lemma pack_bit bit x : 0 <= x < 8 -> Z.testbit (pack bit) x = bit x.
Proof.
  intros Hx. unfold pack, for_loop.
  change (seqZ 0 8) with [0; 1; 2; 3; 4; 5; 6; 7]. cbn [foldl].
  cases8 x;
    destruct (bit 0), (bit 1), (bit 2), (bit 3), (bit 4), (bit 5), (bit 6), (bit 7);
    reflexivity.
Qed.

Lemma pack_range bit : 0 <= pack bit < 256.
Proof.
  unfold pack, for_loop.
  change (seqZ 0 8) with [0; 1; 2; 3; 4; 5; 6; 7]. cbn [foldl].
  unfold shift_bit at 1. destruct (bit 7); apply uchar_range.
Qed.

Lemma small_row_pack s y :
  0 <= y -> small_row s (2 ^ y) = pack (fun x => Z.testbit (load s x) y).
Proof.
  intros Hy. unfold small_row, pack, for_loop.
  change (seqZ 0 8) with [0; 1; 2; 3; 4; 5; 6; 7]. cbn [foldl].
  rewrite !shift_in_pow2 by lia. reflexivity.
Qed.

Lemma large_row_pack s y :
  0 <= y ->
  large_row s (2 ^ y) =
    (pack (fun x => Z.testbit (load s (x * 2)) y),
     pack (fun x => Z.testbit (load s (x * 2 + 1)) y)).
Proof.
  intros Hy. unfold large_row, pack, for_loop.
  change (seqZ 0 8) with [0; 1; 2; 3; 4; 5; 6; 7]. cbn [foldl].
  rewrite !shift_in_pow2 by lia. reflexivity.
Qed.

(** The 16x32 inner loop is the 8x8 inner loop run on the even-offset and on
    the odd-offset bytes, each on their own. *)
Lemma large_row_small_row s ucMask :
  large_row s ucMask =
    (small_row ((fun x => load s (x * 2)) <$> seqZ 0 8) ucMask,
     small_row ((fun x => load s (x * 2 + 1)) <$> seqZ 0 8) ucMask).
Proof. reflexivity. Qed.

Lemma load_rot8 s k :
  0 <= k < 8 -> load (rot8 s) k = small_row s (2 ^ (7 - k)).
Proof. intros Hk. cases8 k; reflexivity. Qed.

Lemma length_rot8 s : length (rot8 s) = 8%nat.
Proof. reflexivity. Qed.

Lemma small_glyph_eq s tmp :
  (8 <= length tmp)%nat -> small_glyph s tmp = rot8 s ++ drop 8 tmp.
Proof.
  intros Hlen.
  do 8 (destruct tmp as [| ? tmp]; [simpl in Hlen; lia |]).
  unfold small_glyph, rot8, for_loop. generalize (small_row s) as r. intros r.
  vm_compute. reflexivity.
Qed.

(** *** The 8x8 loop *)

Lemma rotate_small_unfold st : rotate_small st = for_loop 256 small_body st.
Proof. reflexivity. Qed.

Lemma small_body_inv F tmp n st :
  0 <= n < 256 -> 2048 <= Z.of_nat (length F) -> (8 <= length tmp)%nat ->
  small_inv F tmp n st -> small_inv F tmp (n + 1) (small_body n st).
Proof.
  intros Hn HF Ht (HlF & Hlt & Hptr & Hdone). destruct st as [F' tmp'].
  simpl in HlF, Hlt, Hptr, Hdone. unfold small_body.
  rewrite small_glyph_eq by lia. rewrite Hptr.
  rewrite take_app_length' by reflexivity.
  repeat split; cbn [fst snd].
  - rewrite length_memcpy. exact HlF.
  - rewrite length_app, length_rot8, length_drop. lia.
  - rewrite ptr_memcpy_ge by (rewrite ?length_rot8; lia).
    replace ((n + 1) * 8) with (n * 8 + 8) by lia.
    rewrite <- !ptr_ptr by lia. rewrite Hptr. reflexivity.
  - intros g k Hg Hk. destruct (Z.eq_dec g n) as [-> | Hne].
    + rewrite load_memcpy_in by (rewrite ?length_rot8; lia).
      replace (n * 8 + k - n * 8) with k by lia. apply load_rot8. lia.
    + rewrite load_memcpy_out by (rewrite ?length_rot8; lia).
      apply Hdone; lia.
Qed.

Lemma rotate_small_inv F tmp :
  2048 <= Z.of_nat (length F) -> (8 <= length tmp)%nat ->
  small_inv F tmp 256 (rotate_small (F, tmp)).
Proof.
  intros HF Ht. rewrite rotate_small_unfold.
  cut (256 <= 256 -> small_inv F tmp 256 (for_loop 256 small_body (F, tmp))).
  { intros H. apply H. lia. }
  apply (for_loop_nat_ind
           (fun n st => n <= 256 -> small_inv F tmp n st)); [| | lia].
  - intros _. repeat split. intros g k Hg. lia.
  - intros n t Hn IH Hle. apply small_body_inv; [lia | assumption .. | apply IH; lia].
Qed.

(** *** The 16x32 loop *)

Lemma rotate_large_unfold st : rotate_large st = for_loop 128 large_body st.
Proof. reflexivity. Qed.

Lemma length_rot64 F i : length (rot64 F i) = 64%nat.
Proof. reflexivity. Qed.

Lemma large_bands_eq F i tmp :
  length tmp = 64%nat ->
  for_loop 4 (fun j t => large_band F i j t) tmp = rot64 F i.
Proof.
  intros Hlen.
  do 64 (destruct tmp as [| ? tmp]; [simpl in Hlen; lia |]).
  destruct tmp; [| simpl in Hlen; lia].
  unfold for_loop. change (seqZ 0 4) with [0; 1; 2; 3]. cbn [foldl].
  unfold rot64, band16, large_band. cbv zeta.
  generalize (large_row (ptr F (large_src i 0 0))) as r0.
  generalize (large_row (ptr F (large_src i 1 0))) as r1.
  generalize (large_row (ptr F (large_src i 2 0))) as r2.
  generalize (large_row (ptr F (large_src i 3 0))) as r3.
  intros r3 r2 r1 r0. vm_compute. reflexivity.
Qed.

Lemma rot64_ext F F' i :
  0 <= i ->
  ptr F' (large_base + i * 64) = ptr F (large_base + i * 64) ->
  rot64 F' i = rot64 F i.
Proof.
  intros Hi Hptr.
  assert (Hj : forall j, 0 <= j ->
            ptr F' (large_src i j 0) = ptr F (large_src i j 0)).
  { intros j Hj. unfold large_src, large_base, large_skew in *.
    replace (9728 + 12 + i * 64 + j * 16 + 0)
      with ((9728 + i * 64) + (12 + j * 16)) by lia.
    rewrite <- (ptr_ptr F' (9728 + i * 64)), <- (ptr_ptr F (9728 + i * 64)) by lia.
    rewrite Hptr. reflexivity. }
  unfold rot64. rewrite !Hj by lia. reflexivity.
Qed.

Lemma large_body_inv F n st :
  0 <= n < 128 -> 17920 <= Z.of_nat (length F) ->
  large_inv F n st -> large_inv F (n + 1) (large_body n st).
Proof.
  intros Hn HF (HlF & Hlt & Hlow & Hptr & Hdone). destruct st as [F' tmp'].
  simpl in HlF, Hlt, Hlow, Hptr, Hdone. unfold large_body.
  rewrite large_bands_eq by assumption.
  rewrite (rot64_ext F F') by (assumption || lia).
  rewrite take_ge by (rewrite length_rot64; lia).
  unfold large_inv, large_base in *.
  repeat split; cbn [fst snd].
  - rewrite length_memcpy. exact HlF.
  - intros k Hk. rewrite load_memcpy_out by (rewrite ?length_rot64; lia).
    apply Hlow. lia.
  - rewrite ptr_memcpy_ge by (rewrite ?length_rot64; lia).
    replace (9728 + (n + 1) * 64) with ((9728 + n * 64) + 64) by lia.
    rewrite <- (ptr_ptr F' (9728 + n * 64)), <- (ptr_ptr F (9728 + n * 64)) by lia.
    rewrite Hptr. reflexivity.
  - intros g k Hg Hk. destruct (Z.eq_dec g n) as [-> | Hne].
    + rewrite load_memcpy_in by (rewrite ?length_rot64; lia).
      f_equal. lia.
    + rewrite load_memcpy_out by (rewrite ?length_rot64; lia).
      apply Hdone; lia.
Qed.

Lemma rotate_large_inv F tmp :
  17920 <= Z.of_nat (length F) -> length tmp = 64%nat ->
  large_inv F 128 (rotate_large (F, tmp)).
Proof.
  intros HF Ht. rewrite rotate_large_unfold.
  cut (128 <= 128 -> large_inv F 128 (for_loop 128 large_body (F, tmp))).
  { intros H. apply H. lia. }
  apply (for_loop_nat_ind (fun n st => n <= 128 -> large_inv F n st)); [| | lia].
  - intros _. repeat split; [assumption |]. intros g k Hg. lia.
  - intros n t Hn IH Hle. apply large_body_inv; [lia | assumption | apply IH; lia].
Qed.

(** *** The whole of [RotateFont90] *)

Lemma ptr_from_2048 F F' a :
  2048 <= a -> ptr F' (256 * 8) = ptr F (256 * 8) -> ptr F' a = ptr F a.
Proof.
  intros Ha H. replace a with (256 * 8 + (a - 2048)) by lia.
  rewrite <- (ptr_ptr F' (256 * 8)), <- (ptr_ptr F (256 * 8)) by lia.
  rewrite H. reflexivity.
Qed.

Lemma rotated_small F tmp g k :
  17920 <= Z.of_nat (length F) -> length tmp = 64%nat ->
  0 <= g < 256 -> 0 <= k < 8 ->
  load (RotateFont90_from tmp F) (g * 8 + k)
  = small_row (ptr F (g * 8)) (2 ^ (7 - k)).
Proof.
  intros HF Ht Hg Hk. unfold RotateFont90_from.
  destruct (rotate_small_inv F tmp) as (HlF & Hlt & Hptr & Hdone); [lia .. |].
  destruct (rotate_small (F, tmp)) as [F1 tmp1]. cbn [fst snd] in *.
  destruct (rotate_large_inv F1 tmp1) as (_ & _ & Hlow & _); [lia .. |].
  rewrite Hlow by (unfold large_base; lia). apply Hdone; lia.
Qed.

Lemma rotated_large F tmp g k :
  17920 <= Z.of_nat (length F) -> length tmp = 64%nat ->
  0 <= g < 128 -> 0 <= k < 64 ->
  load (RotateFont90_from tmp F) (large_base + g * 64 + k)
  = load (rot64 F g) k.
Proof.
  intros HF Ht Hg Hk. unfold RotateFont90_from.
  destruct (rotate_small_inv F tmp) as (HlF & Hlt & Hptr & _); [lia .. |].
  destruct (rotate_small (F, tmp)) as [F1 tmp1]. cbn [fst snd] in *.
  destruct (rotate_large_inv F1 tmp1) as (_ & _ & _ & _ & Hdone); [lia .. |].
  rewrite Hdone by lia.
  rewrite (rot64_ext F F1 g); [reflexivity | lia |].
  apply ptr_from_2048; [unfold large_base; lia | exact Hptr].
Qed.

Ltac cases4 j :=
  let H := fresh in
  assert (H : j = 0 \/ j = 1 \/ j = 2 \/ j = 3) by lia;
  destruct H as [-> | [-> | [-> | ->]]].

Lemma load_rot64 F i j y :
  0 <= j < 4 -> 0 <= y < 8 ->
  load (rot64 F i) (j * 16 + (7 - y))
    = fst (large_row (ptr F (large_src i j 0)) (2 ^ y)) /\
  load (rot64 F i) (j * 16 + (15 - y))
    = snd (large_row (ptr F (large_src i j 0)) (2 ^ y)).
Proof. intros Hj Hy. cases4 j; cases8 y; split; reflexivity. Qed.

End FontFacts.

(** ** Claims about the font rotation *)

Section FontClaims.
Import Font FontShape FontFacts.

Variable F : list Z.
Hypothesis font_size : 17932 <= Z.of_nat (length F).

Lemma pack_dot y :
  0 <= y < 8 ->
  pack (fun x => Z.testbit (if x =? 0 then 1 else 0) y) = if y =? 0 then 1 else 0.
Proof. intros Hy. cases8 y; reflexivity. Qed.

(** C1, as the code has it: after [RotateFont90], for every glyph [i] of the
    8x8 font and every [y] in 0..7, the byte at offset [7 - y] of the glyph
    is an [unsigned char] whose bit [x] is bit [y] of the glyph's original
    byte [x], for every [x] in 0..7: the bit sampled from row [x] ends at
    bit position [x], not [7 - x].  So a glyph whose row 0 is [0b00000001]
    and whose other rows are 0 becomes the glyph whose only non-zero byte is
    the one at offset 7, and that byte is [0x01]. *)
Theorem small_font_rotation i :
  0 <= i < 256 ->
  (forall x y, 0 <= x < 8 -> 0 <= y < 8 ->
     Z.testbit (load (RotateFont90 F) (i * 8 + (7 - y))) x
     = Z.testbit (load F (i * 8 + x)) y) /\
  (forall k, 0 <= k < 8 -> 0 <= load (RotateFont90 F) (i * 8 + k) < 256) /\
  ((forall x, 0 <= x < 8 -> load F (i * 8 + x) = if x =? 0 then 1 else 0) ->
   forall k, 0 <= k < 8 ->
     load (RotateFont90 F) (i * 8 + k) = if k =? 7 then 1 else 0).
Proof.
  intros Hi.
  assert (Hrow : forall y, 0 <= y < 8 ->
            load (RotateFont90 F) (i * 8 + (7 - y))
            = pack (fun x => Z.testbit (load (ptr F (i * 8)) x) y)).
  { intros y Hy. unfold RotateFont90.
    rewrite rotated_small by (reflexivity || lia).
    replace (7 - (7 - y)) with y by lia. apply small_row_pack. lia. }
  split; [| split].
  - intros x y Hx Hy. rewrite Hrow by lia. rewrite pack_bit by lia.
    rewrite load_ptr by lia. reflexivity.
  - intros k Hk. replace k with (7 - (7 - k)) by lia.
    rewrite Hrow by lia. apply pack_range.
  - intros Hdot k Hk.
    assert (Hy : load (RotateFont90 F) (i * 8 + (7 - (7 - k)))
                 = if 7 - k =? 0 then 1 else 0).
    { rewrite Hrow by lia. rewrite <- pack_dot by lia.
      unfold pack, for_loop.
      change (seqZ 0 8) with [0; 1; 2; 3; 4; 5; 6; 7]. cbn [foldl].
      rewrite !load_ptr by lia. rewrite !Hdot by lia. reflexivity. }
    replace (7 - (7 - k)) with k in Hy by lia. rewrite Hy.
    destruct (Z.eqb_spec (7 - k) 0), (Z.eqb_spec k 7); lia || reflexivity.
Qed.

(** C3: after [RotateFont90], for every glyph [i] of the 16x32 font, every
    band [j] and every [y] in 0..7, the bytes at offsets [7 - y] and
    [15 - y] of the band's 16-byte window of the glyph are what the 8x8 inner
    loop builds, under the mask of bit [y], from the even-offset and from
    the odd-offset bytes of the 16 source bytes at [9728 + 12 + 64 i + 16 j]
    of the original table: bit [x] of the one is bit [y] of source byte
    [2 x], bit [x] of the other is bit [y] of source byte [2 x + 1]. *)
Theorem large_font_rotation i j y :
  0 <= i < 128 -> 0 <= j < 4 -> 0 <= y < 8 ->
  let s := ptr F (large_src i j 0) in
  let c := load (RotateFont90 F) (large_base + i * 64 + (j * 16 + (7 - y))) in
  let c2 := load (RotateFont90 F) (large_base + i * 64 + (j * 16 + (15 - y))) in
  c = small_row ((fun x => load s (x * 2)) <$> seqZ 0 8) (2 ^ y) /\
  c2 = small_row ((fun x => load s (x * 2 + 1)) <$> seqZ 0 8) (2 ^ y) /\
  forall x, 0 <= x < 8 ->
    Z.testbit c x = Z.testbit (load F (large_src i j (x * 2))) y /\
    Z.testbit c2 x = Z.testbit (load F (large_src i j (x * 2 + 1))) y.
Proof.
  intros Hi Hj Hy s c c2.
  destruct (load_rot64 F i j y Hj Hy) as [Hc Hc2].
  assert (Ec : c = fst (large_row s (2 ^ y))).
  { unfold c, RotateFont90. rewrite rotated_large by (reflexivity || lia).
    exact Hc. }
  assert (Ec2 : c2 = snd (large_row s (2 ^ y))).
  { unfold c2, RotateFont90. rewrite rotated_large by (reflexivity || lia).
    exact Hc2. }
  split; [| split].
  - rewrite Ec, large_row_small_row. reflexivity.
  - rewrite Ec2, large_row_small_row. reflexivity.
  - intros x Hx. rewrite Ec, Ec2, large_row_pack by lia. cbn [fst snd].
    rewrite !pack_bit by lia. unfold s.
    rewrite !load_ptr by (unfold large_src, large_base, large_skew; lia).
    unfold large_src. split; do 2 f_equal; lia.
Qed.

End FontClaims.

Section FontExamples.
Import Font FontShape FontFacts.

Lemma dot_font_size : 17932 <= Z.of_nat (length dot_font).
Proof. vm_compute. discriminate. Qed.

Lemma skew_font_size : 17932 <= Z.of_nat (length skew_font).
Proof. vm_compute. discriminate. Qed.

(** The bytes of the rotated example fonts that the counterexamples look at,
    read off the loop invariants. *)
Lemma dot_font_rotated :
  load (RotateFont90 dot_font) 7 = 1 /\
  load (RotateFont90 dot_font) 9783 = 0.
Proof.
  pose proof dot_font_size as Hsize. unfold RotateFont90. split.
  - change 7 with (0 * 8 + 7).
    rewrite rotated_small by (reflexivity || lia). reflexivity.
  - change 9783 with (large_base + 0 * 64 + 55).
    rewrite rotated_large by (reflexivity || lia). reflexivity.
Qed.

Lemma skew_font_rotated : load (RotateFont90 skew_font) 9783 = 4.
Proof.
  pose proof skew_font_size as Hsize. unfold RotateFont90.
  change 9783 with (large_base + 0 * 64 + 55).
  rewrite rotated_large by (reflexivity || lia). reflexivity.
Qed.

(** C1 as stated fails: the glyph whose row 0 is [0b00000001] is rotated to
    a byte at offset 7 that is [0x01], with bit 7 clear, so bit [y] of row
    [x] is not found at bit [7 - x]. *)
Lemma small_font_rotation_mirrored_bit_cex :
  ~ (forall (F : list Z) (i x y : Z),
       17932 <= Z.of_nat (length F) ->
       0 <= i < 256 -> 0 <= x < 8 -> 0 <= y < 8 ->
       Z.testbit (load (RotateFont90 F) (i * 8 + (7 - y))) (7 - x)
       = Z.testbit (load F (i * 8 + x)) y) /\
  load dot_font 0 = 1 /\
  load (RotateFont90 dot_font) 7 = 1 /\
  Z.testbit (load (RotateFont90 dot_font) 7) 7 = false.
Proof.
  destruct dot_font_rotated as [H7 _].
  split; [| split; [reflexivity | split; [exact H7 | rewrite H7; reflexivity]]].
  intros H. specialize (H dot_font 0 0 0 dot_font_size).
  change (0 * 8 + (7 - 0)) with 7 in H. rewrite H7 in H.
  specialize (H ltac:(lia) ltac:(lia) ltac:(lia)). discriminate H.
Qed.

(** C8 as stated fails: band 3 of every glyph reads source bytes at offsets
    60..75 of the glyph, twelve of them in the next 64-byte block; for the
    last glyph they lie past the 8192-byte region; and the rotated glyph 0
    depends on a byte of glyph 1. *)
Lemma large_window_leaves_glyph_cex :
  ~ (forall i j x : Z, 0 <= i < 128 -> 0 <= j < 4 -> 0 <= x < 8 ->
       large_base + i * 64 <= large_src i j (x * 2) /\
       large_src i j (x * 2 + 1) < large_base + i * 64 + 64) /\
  ~ (forall i j x : Z, 0 <= i < 128 -> 0 <= j < 4 -> 0 <= x < 8 ->
       large_src i j (x * 2 + 1) < large_base + 8192) /\
  large_src 0 3 4 = large_base + 64 /\
  take 64 (ptr dot_font large_base) = take 64 (ptr skew_font large_base) /\
  load (RotateFont90 dot_font) (large_base + 55)
    <> load (RotateFont90 skew_font) (large_base + 55).
Proof.
  split; [| split; [| split; [reflexivity | split]]].
  - intros H. specialize (H 0 3 2 ltac:(lia) ltac:(lia) ltac:(lia)).
    unfold large_src, large_base, large_skew in H. lia.
  - intros H. specialize (H 127 3 7 ltac:(lia) ltac:(lia) ltac:(lia)).
    unfold large_src, large_base, large_skew in H. lia.
  - vm_compute. reflexivity.
  - change (large_base + 55) with 9783.
    rewrite (proj2 dot_font_rotated), skew_font_rotated. discriminate.
Qed.

End FontExamples.

(** C8, as the code has it: for glyph [i] and band [j] of the 16x32 font the
    byte read as [s[k]], [k] in 0..15, is the byte of the table at offset
    [9728 + 64 i + 12 + 16 j + k].  These 16 bytes lie in the glyph's own
    64-byte block for bands 0..2 and for [k < 4] of band 3; for [4 <= k] of
    band 3 they are the first twelve bytes of the following block.  All reads
    lie in the table offsets 9740..17931. *)
Theorem large_window_bounds (F : list Z) (i j k : Z) :
  0 <= i < 128 -> 0 <= j < 4 -> 0 <= k < 16 ->
  load (ptr F (Font.large_src i j 0)) k = load F (Font.large_src i j k) /\
  Font.large_src i j k = Font.large_base + i * 64 + (12 + j * 16 + k) /\
  (j <= 2 \/ k < 4 <->
     Font.large_base + i * 64 <= Font.large_src i j k
       < Font.large_base + (i + 1) * 64) /\
  (j = 3 /\ 4 <= k <->
     Font.large_base + (i + 1) * 64 <= Font.large_src i j k
       < Font.large_base + (i + 1) * 64 + 12) /\
  Font.large_base + 12 <= Font.large_src i j k < Font.large_base + 8192 + 12.
Proof.
  intros Hi Hj Hk. split.
  - rewrite load_ptr by (unfold Font.large_src, Font.large_base, Font.large_skew; lia).
    f_equal. unfold Font.large_src. lia.
  - unfold Font.large_src, Font.large_base, Font.large_skew. lia.
Qed.

Lemma large_window_bounds_witness :
  load (ptr Font.dot_font (Font.large_src 127 3 0)) 15
  = load Font.dot_font (Font.large_src 127 3 15) /\
  Font.large_src 127 3 15 = Font.large_base + 127 * 64 + (12 + 3 * 16 + 15) /\
  (3 <= 2 \/ 15 < 4 <->
     Font.large_base + 127 * 64 <= Font.large_src 127 3 15
       < Font.large_base + (127 + 1) * 64) /\
  (3 = 3 /\ 4 <= 15 <->
     Font.large_base + (127 + 1) * 64 <= Font.large_src 127 3 15
       < Font.large_base + (127 + 1) * 64 + 12) /\
  Font.large_base + 12 <= Font.large_src 127 3 15 < Font.large_base + 8192 + 12.
Proof. apply (large_window_bounds Font.dot_font 127 3 15); lia. Defined.

Lemma small_font_rotation_witness :
  Z.testbit (load (Font.RotateFont90 Font.dot_font) (0 * 8 + (7 - 0))) 0
  = Z.testbit (load Font.dot_font (0 * 8 + 0)) 0.
Proof.
  apply (proj1 (small_font_rotation Font.dot_font dot_font_size 0 ltac:(lia))); lia.
Defined.

Lemma large_font_rotation_witness :
  Z.testbit (load (Font.RotateFont90 Font.skew_font)
               (Font.large_base + 0 * 64 + (3 * 16 + (7 - 0)))) 2
  = Z.testbit (load Font.skew_font (Font.large_src 0 3 (2 * 2))) 0.
Proof.
  exact (proj1 (proj2 (proj2 (large_font_rotation Font.skew_font skew_font_size 0 3 0
                                ltac:(lia) ltac:(lia) ltac:(lia)))
                  2 ltac:(lia))).
Defined.

(** ** Facts about the driver *)

Lemma oledSetPosition_eq x y s :
  oledSetPosition x y s
  = Oled (file_i2c s) (to_int (to_int (y * 128) + x)) (ucScreen s) (ucFont s)
         (bus s ++ position_cmds x y) (mirrored s).
Proof.
  unfold oledSetPosition, oledWriteCommand, bus_write, set_offset, position_cmds.
  cbn [file_i2c iScreenOffset ucScreen ucFont bus mirrored].
  rewrite <- !app_assoc. reflexivity.
Qed.

Lemma oledWriteDataBlock_eq buf s :
  oledWriteDataBlock buf s
  = Oled (file_i2c s) (to_int (iScreenOffset s + Z.of_nat (length buf)))
         (mirror_screen (ucScreen s) (iScreenOffset s) buf) (ucFont s)
         (bus s ++ [0x40 :: buf])
         (mirrored s ++ [(iScreenOffset s, Z.of_nat (length buf))]).
Proof. reflexivity. Qed.

Lemma oled_eta s :
  Oled (file_i2c s) (iScreenOffset s) (ucScreen s) (ucFont s) (bus s) (mirrored s) = s.
Proof. destruct s. reflexivity. Qed.

(** C7: when [open] and [ioctl] succeed, [oledInit] keeps the handle, sends
    one transmission, the command introducer [0x00] followed by the 23
    opcodes in order, rotates the font once and returns 0; when either fails
    it returns -1, sends nothing and leaves the handle at 0. *)
Theorem oledInit_burst fd rc iAddr s :
  (0 <= fd -> 0 <= rc ->
     oledInit fd rc iAddr s
     = (OK, Oled fd (iScreenOffset s) (ucScreen s)
              (Font.RotateFont90 (ucFont s))
              (bus s ++ [0x00 :: [0xAE; 0xA8; 0x3F; 0xD3; 0x00; 0x40; 0xA0; 0xA1;
                                  0xC0; 0xC8; 0xDA; 0x12; 0x81; 0xFF; 0xA4; 0xA6;
                                  0xD5; 0x80; 0x8D; 0x14; 0xAF; 0x20; 0x02]])
              (mirrored s))) /\
  (fd < 0 \/ rc < 0 ->
     oledInit fd rc iAddr s
     = (FAIL, Oled 0 (iScreenOffset s) (ucScreen s) (ucFont s) (bus s) (mirrored s))) /\
  length initbuf = 24%nat.
Proof.
  unfold oledInit. split; [| split; [| reflexivity]].
  - intros Hfd Hrc.
    destruct (Z.ltb_spec fd 0); [lia |]. destruct (Z.ltb_spec rc 0); [lia |].
    reflexivity.
  - intros Hfail.
    destruct (Z.ltb_spec fd 0); [reflexivity |].
    destruct (Z.ltb_spec rc 0); [reflexivity | lia].
Qed.

Lemma oledInit_burst_witness :
  fst (oledInit 3 0 0x3c (power_on Font.dot_font)) = OK /\
  bus (snd (oledInit 3 0 0x3c (power_on Font.dot_font))) = [initbuf] /\
  oledInit 3 (-1) 0x3c (power_on Font.dot_font) = (FAIL, power_on Font.dot_font).
Proof.
  destruct (oledInit_burst 3 0 0x3c (power_on Font.dot_font)) as (Hok & _ & _).
  destruct (oledInit_burst 3 (-1) 0x3c (power_on Font.dot_font)) as (_ & Hfail & _).
  rewrite Hok by lia. rewrite Hfail by lia.
  split; [reflexivity | split; reflexivity].
Defined.

(** *** [oledFill] *)

Lemma seqZ_snoc n : 0 <= n -> seqZ 0 (n + 1) = seqZ 0 n ++ [n].
Proof.
  intros Hn. rewrite seqZ_app by lia.
  rewrite (seqZ_cons (0 + n) 1) by lia. rewrite (seqZ_nil _ (Z.pred 1)) by lia.
  reflexivity.
Qed.

Lemma memcpy_page (v w : Z) (n : Z) (rest : list Z) :
  0 <= n -> (128 <= length rest)%nat ->
  memcpy (replicate (Z.to_nat (n * 128)) v ++ rest) (n * 128) (replicate 128 w)
  = replicate (Z.to_nat (n * 128)) v ++ replicate 128 w ++ drop 128 rest.
Proof.
  intros Hn Hrest. unfold memcpy.
  generalize (Z.to_nat (n * 128)) as m. intros m.
  pose proof (list_inserts_app_r (replicate 128 w) (replicate m v) rest 0) as H.
  rewrite length_replicate, Nat.add_0_r in H. rewrite H. f_equal.
  rewrite <- (take_drop 128 rest) at 1.
  apply list_inserts_0_r.
  rewrite length_replicate, length_take. lia.
Qed.

Lemma fill_body_inv v s0 n s :
  0 <= n < 8 -> length (ucScreen s0) = 1024%nat ->
  fill_inv v s0 n s -> fill_inv v s0 (n + 1) (fill_body v n s).
Proof.
  intros Hn Hlen (Hfile & Hfont & _ & _ & Hscr & Hbus & Hmir).
  unfold fill_body. rewrite oledWriteDataBlock_eq, oledSetPosition_eq.
  cbn [file_i2c iScreenOffset ucScreen ucFont bus mirrored].
  rewrite length_replicate.
  rewrite (to_int_id (n * 128)) by (int_consts; lia).
  rewrite (to_int_id (n * 128 + 0)) by (int_consts; lia).
  rewrite to_int_id by (int_consts; lia).
  repeat split; cbn [file_i2c iScreenOffset ucScreen ucFont bus mirrored].
  - exact Hfile.
  - exact Hfont.
  - intros _. lia.
  - intros H. lia.
  - unfold mirror_screen. destruct (Z.ltb_spec (n * 128 + 0) 0) as [? | _]; [lia |].
    rewrite Hscr. replace (n * 128 + 0) with (n * 128) by lia.
    rewrite memcpy_page by (rewrite ?length_drop; lia).
    rewrite drop_drop, app_assoc, <- replicate_add. do 2 f_equal; lia.
  - rewrite Hbus, seqZ_snoc, fmap_app, concat_app by lia.
    rewrite <- !app_assoc. cbn [fmap list_fmap concat]. rewrite app_nil_r.
    reflexivity.
  - rewrite Hmir, seqZ_snoc, fmap_app by lia.
    rewrite <- !app_assoc. cbn [fmap list_fmap].
    replace (n * 128 + 0) with (n * 128) by lia. reflexivity.
Qed.

Lemma oledFill_loop v s :
  length (ucScreen s) = 1024%nat ->
  fill_inv v s 8 (for_loop 8 (fill_body v) s).
Proof.
  intros Hlen.
  cut (8 <= 8 -> fill_inv v s 8 (for_loop 8 (fill_body v) s)).
  { intros H. apply H. lia. }
  apply (for_loop_nat_ind (fun n t => n <= 8 -> fill_inv v s n t)); [| | lia].
  - intros _. unfold fill_inv.
    repeat split; cbn; rewrite ?app_nil_r; try reflexivity; lia.
  - intros n t Hn IH Hle. apply fill_body_inv; [lia | assumption | apply IH; lia].
Qed.

(** C5: on an initialised driver whose cache has its 1024 bytes, [oledFill]
    returns 0, leaves every cache byte equal to the value, and has sent, for
    each page 0..7 in turn, the three positioning commands for column 0 of
    the page and one data block of 128 copies of the value; on a driver that
    is not initialised it returns -1 and changes nothing.  So filling with
    [0xFF] and then with [0x00] leaves every cache byte [0x00]. *)
Theorem oledFill_post s v :
  length (ucScreen s) = 1024%nat -> 0 <= v < 256 ->
  (file_i2c s = 0 -> oledFill v s = (FAIL, s)) /\
  (file_i2c s <> 0 ->
     oledFill v s
     = (OK, Oled (file_i2c s) 1024 (replicate 1024 v) (ucFont s)
              (bus s ++ concat ((fun y =>
                 [[0x00; 0xb0 + y]; [0x00; 0x00]; [0x00; 0x10];
                  0x40 :: replicate 128 v]) <$> seqZ 0 8))
              (mirrored s ++ ((fun y => (y * 128, 128)) <$> seqZ 0 8))) /\
     (forall k, 0 <= k < 1024 -> load (ucScreen (snd (oledFill v s))) k = v) /\
     ucScreen (snd (oledFill 0x00 (snd (oledFill 0xFF s)))) = replicate 1024 0x00).
Proof.
  intros Hlen Hv.
  assert (Hfill : forall w t, length (ucScreen t) = 1024%nat -> 0 <= w < 256 ->
            file_i2c t <> 0 ->
            oledFill w t
            = (OK, Oled (file_i2c t) 1024 (replicate 1024 w) (ucFont t)
                     (bus t ++ concat (fill_page w <$> seqZ 0 8))
                     (mirrored t ++ ((fun y => (y * 128, 128)) <$> seqZ 0 8)))).
  { intros w t Ht Hw Hfile. unfold oledFill.
    destruct (Z.eqb_spec (file_i2c t) 0) as [? | _]; [contradiction |].
    rewrite (uchar_id w) by lia. f_equal.
    destruct (oledFill_loop w t Ht) as (H1 & H2 & H3 & _ & H5 & H6 & H7).
    fold (fill_body w).
    rewrite <- (oled_eta (for_loop 8 (fill_body w) t)).
    rewrite H1, H2, H3, H5, H6, H7 by lia.
    rewrite drop_ge by lia. rewrite app_nil_r. reflexivity. }
  split.
  - intros Hfile. unfold oledFill. rewrite Hfile. reflexivity.
  - intros Hfile. rewrite (Hfill v s) by assumption. split; [| split].
    + reflexivity.
    + intros k Hk. cbn [snd ucScreen]. unfold load.
      rewrite lookup_replicate_2 by lia. reflexivity.
    + rewrite (Hfill 255 s) by (assumption || lia). cbn [snd].
      rewrite Hfill; [reflexivity | | lia | exact Hfile].
      cbn [ucScreen]. apply length_replicate.
Qed.

Lemma oledFill_post_witness :
  ucScreen (snd (oledFill 0x00 (snd (oledFill 0xFF (set_file 3 (power_on []))))))
  = replicate 1024 0x00.
Proof.
  apply (oledFill_post (set_file 3 (power_on [])) 0xFF);
    [reflexivity | lia | discriminate].
Defined.

(** *** [oledSetPixel] *)

Lemma put_bit_at_eq u y c :
  put_bit u y c = put_bit_at u (Z.land y 7) (uchar c =? 0).
Proof. reflexivity. Qed.

Lemma put_bit_ok_all :
  forallb (fun u => forallb (fun k => put_bit_ok u k true && put_bit_ok u k false)
                      (seqZ 0 8)) (seqZ 0 256) = true.
Proof. vm_compute. reflexivity. Qed.

Lemma put_bit_ok_byte u k off :
  0 <= u < 256 -> 0 <= k < 8 -> put_bit_ok u k off = true.
Proof.
  intros Hu Hk. pose proof put_bit_ok_all as H.
  rewrite forallb_forall in H.
  specialize (H u). rewrite <- list_elem_of_In, elem_of_seqZ in H.
  specialize (H ltac:(lia)). rewrite forallb_forall in H.
  specialize (H k). rewrite <- list_elem_of_In, elem_of_seqZ in H.
  specialize (H ltac:(lia)). apply andb_prop in H. destruct off; tauto.
Qed.

Lemma land_7_range y : 0 <= Z.land y 7 < 8.
Proof.
  change 7 with (Z.ones 3). rewrite Z.land_ones by lia.
  apply Z.mod_pos_bound. reflexivity.
Qed.

Lemma put_bit_facts u y c :
  0 <= u < 256 ->
  (put_bit u y c = u <-> Z.testbit u (Z.land y 7) = negb (uchar c =? 0)) /\
  put_bit (put_bit u y c) y c = put_bit u y c /\
  Z.testbit (put_bit u y c) (Z.land y 7) = negb (uchar c =? 0).
Proof.
  intros Hu. rewrite !put_bit_at_eq.
  pose proof (put_bit_ok_byte u (Z.land y 7) (uchar c =? 0) Hu (land_7_range y)) as H.
  unfold put_bit_ok in H.
  apply andb_prop in H. destruct H as [H H3].
  apply andb_prop in H. destruct H as [H1 H2].
  apply Bool.eqb_prop in H1, H3. apply Z.eqb_eq in H2.
  split; [| split; assumption].
  rewrite <- Z.eqb_eq, H1.
  destruct (Z.testbit u (Z.land y 7)), (uchar c =? 0); cbn; intuition congruence.
Qed.

Lemma load_byte scr k :
  Forall (fun b => 0 <= b < 256) scr -> 0 <= load scr k < 256.
Proof.
  intros Hscr. unfold load. destruct (scr !! Z.to_nat k) as [b |] eqn:E; cbn.
  - exact (Forall_lookup_1 _ _ _ _ Hscr E).
  - lia.
Qed.

(** The linear cache index of an in-range pixel. *)
Lemma pixel_index x y :
  0 <= x <= 127 -> 0 <= y <= 63 ->
  to_int (to_int (Z.shiftr y 3 * 128) + x) = Z.shiftr y 3 * 128 + x /\
  0 <= Z.shiftr y 3 * 128 + x <= 1023.
Proof.
  intros Hx Hy. rewrite Z.shiftr_div_pow2 by lia. change (2 ^ 3) with 8.
  assert (0 <= y / 8 <= 7) by (Z.div_mod_to_equations; lia).
  rewrite to_int_add_l. rewrite to_int_id by (int_consts; lia). lia.
Qed.

(** [oledSetPixel] once its two guards have passed. *)
Lemma oledSetPixel_in x y c s :
  file_i2c s <> 0 ->
  0 <= to_int (to_int (Z.shiftr y 3 * 128) + x) <= 1023 ->
  oledSetPixel x y c s =
    let i := to_int (to_int (Z.shiftr y 3 * 128) + x) in
    let uc := put_bit (load (ucScreen s) i) y c in
    if uc =? load (ucScreen s) i then (OK, s)
    else (OK, oledWriteDataBlock [uc] (oledSetPosition x (Z.shiftr y 3) s)).
Proof.
  intros Hfile Hi. unfold oledSetPixel.
  destruct (Z.eqb_spec (file_i2c s) 0) as [? | _]; [contradiction |].
  destruct (Z.ltb_spec (to_int (to_int (Z.shiftr y 3 * 128) + x)) 0); [lia |].
  destruct (Z.gtb_spec (to_int (to_int (Z.shiftr y 3 * 128) + x)) 1023); [lia |].
  reflexivity.
Qed.

Lemma load_mirror_one scr i v :
  0 <= i -> i < Z.of_nat (length scr) -> load (mirror_screen scr i [v]) i = v.
Proof.
  intros Hi Hlen. unfold mirror_screen.
  destruct (Z.ltb_spec i 0); [lia |].
  rewrite load_memcpy_in by (cbn [length]; lia).
  replace (i - i) with 0 by lia. reflexivity.
Qed.

(** One call and its repeat: on an initialised driver with a well-formed
    cache and an in-range
    pixel, a call whose colour already matches the cached bit returns 0 and
    leaves the whole state, the bus included, as it was; a call that changes
    the bit sends the three positioning commands and exactly one data block
    of one byte; and in either case the same call made again returns 0 and
    changes nothing, the cache now holding the requested bit. *)
Theorem oledSetPixel_idempotent s x y c :
  file_i2c s <> 0 ->
  length (ucScreen s) = 1024%nat ->
  Forall (fun b => 0 <= b < 256) (ucScreen s) ->
  0 <= x <= 127 -> 0 <= y <= 63 ->
  let i := Z.shiftr y 3 * 128 + x in
  let cached := Z.testbit (load (ucScreen s) i) (Z.land y 7) in
  let wanted := negb (uchar c =? 0) in
  let s1 := snd (oledSetPixel x y c s) in
  (cached = wanted -> oledSetPixel x y c s = (OK, s)) /\
  (cached <> wanted ->
     fst (oledSetPixel x y c s) = OK /\
     bus s1 = bus s ++ position_cmds x (Z.shiftr y 3)
                    ++ [[0x40; put_bit (load (ucScreen s) i) y c]]) /\
  oledSetPixel x y c s1 = (OK, s1) /\
  Z.testbit (load (ucScreen s1) i) (Z.land y 7) = wanted.
Proof.
  intros Hfile Hlen Hbytes Hx Hy i cached wanted s1.
  destruct (pixel_index x y Hx Hy) as [Hi Hrange]. fold i in Hi, Hrange.
  pose proof (load_byte (ucScreen s) i Hbytes) as Hold.
  destruct (put_bit_facts (load (ucScreen s) i) y c Hold) as (Hsame & Hidem & Hbit).
  pose proof (oledSetPixel_in x y c s Hfile ltac:(rewrite Hi; lia)) as Hcall.
  cbv zeta in Hcall. rewrite Hi in Hcall. fold i in Hcall.
  destruct (Z.eqb_spec (put_bit (load (ucScreen s) i) y c) (load (ucScreen s) i))
    as [Heq | Hne].
  - (* the bit is already as requested *)
    assert (Hs1 : s1 = s) by (unfold s1; rewrite Hcall; reflexivity).
    rewrite Hs1. repeat split.
    + intros _. exact Hcall.
    + rewrite Hcall. reflexivity.
    + exfalso. apply H. apply Hsame. exact Heq.
    + exact Hcall.
    + rewrite <- Heq. exact Hbit.
  - (* the bit changes *)
    assert (Hs1 : s1 = oledWriteDataBlock [put_bit (load (ucScreen s) i) y c]
                         (oledSetPosition x (Z.shiftr y 3) s))
      by (unfold s1; rewrite Hcall; reflexivity).
    assert (Hscr1 : load (ucScreen s1) i = put_bit (load (ucScreen s) i) y c).
    { rewrite Hs1, oledWriteDataBlock_eq, oledSetPosition_eq.
      cbn [file_i2c iScreenOffset ucScreen ucFont bus mirrored].
      rewrite Hi. apply load_mirror_one; lia. }
    repeat split.
    + intros Hmatch. exfalso. apply Hne. apply Hsame. exact Hmatch.
    + rewrite Hcall. reflexivity.
    + rewrite Hs1, oledWriteDataBlock_eq, oledSetPosition_eq.
      cbn [file_i2c iScreenOffset ucScreen ucFont bus mirrored].
      rewrite <- app_assoc. reflexivity.
    + assert (Hfile1 : file_i2c s1 <> 0) by (rewrite Hs1; exact Hfile).
      rewrite (oledSetPixel_in x y c s1 Hfile1) by (rewrite Hi; lia).
      cbv zeta. rewrite Hi. fold i. rewrite Hscr1, Hidem, Z.eqb_refl.
      reflexivity.
    + rewrite Hscr1. exact Hbit.
Qed.

Lemma oledSetPixel_idempotent_witness :
  oledSetPixel 5 9 1 (snd (oledSetPixel 5 9 1 (set_file 3 (power_on []))))
  = (OK, snd (oledSetPixel 5 9 1 (set_file 3 (power_on [])))).
Proof.
  destruct (oledSetPixel_idempotent (set_file 3 (power_on [])) 5 9 1)
    as (_ & _ & H & _);
    [discriminate | reflexivity | apply Forall_replicate; lia | lia | lia |].
  exact H.
Defined.

(** The state a successful [oledInit] leaves, from power-on. *)
Lemma oledInit_ready (F : list Z) :
  oledInit 3 0 0x3c (power_on F)
  = (OK, Oled 3 0 (replicate 1024 0) (Font.RotateFont90 F) [initbuf] []).
Proof. reflexivity. Qed.

(** C4 as stated fails: after a successful [oledInit], two successive calls
    that clear a pixel that is already clear send nothing at all, and two
    successive calls that set it send four transmissions, the three
    positioning commands and the data byte; in neither case is it one. *)
Lemma oledSetPixel_twice_one_write_cex :
  let s := snd (oledInit 3 0 0x3c (power_on Font.dot_font)) in
  let twice c := snd (oledSetPixel 5 9 c (snd (oledSetPixel 5 9 c s))) in
  bus (twice 0) = bus s /\
  bus (twice 1) = bus s ++ [[0x00; 0xb1]; [0x00; 0x05]; [0x00; 0x10]; [0x40; 0x02]] /\
  ~ (forall (t : oled) (x y c : Z),
       file_i2c t <> 0 -> length (ucScreen t) = 1024%nat ->
       Forall (fun b => 0 <= b < 256) (ucScreen t) ->
       0 <= x <= 127 -> 0 <= y <= 63 ->
       length (bus (snd (oledSetPixel x y c (snd (oledSetPixel x y c t)))))
       = S (length (bus t))).
Proof.
  cbv zeta. rewrite oledInit_ready. cbn [snd].
  generalize (Font.RotateFont90 Font.dot_font) as G. intros G.
  split; [reflexivity | split; [reflexivity |]].
  intros H.
  specialize (H (Oled 3 0 (replicate 1024 0) G [initbuf] []) 5 9 0).
  cbn [file_i2c ucScreen] in H.
  assert (Hbytes : Forall (fun b => 0 <= b < 256) (replicate 1024 0))
    by (apply Forall_replicate; lia).
  specialize (H ltac:(discriminate) ltac:(reflexivity) Hbytes
                ltac:(lia) ltac:(lia)).
  discriminate H.
Qed.

(** C4, as the code has it: on an initialised driver with a well-formed
    cache and an in-range pixel, a call whose colour already matches the
    cached bit returns 0 and sends nothing, leaving the whole state as it
    was; of two successive calls with the same colour at the same
    coordinates the second is always such a no-op; and the two calls
    together send nothing when the bit already matched, and otherwise
    exactly four transmissions, the three positioning commands and one data
    block of one byte, all from the first call. *)
Theorem oledSetPixel_twice s x y c :
  file_i2c s <> 0 ->
  length (ucScreen s) = 1024%nat ->
  Forall (fun b => 0 <= b < 256) (ucScreen s) ->
  0 <= x <= 127 -> 0 <= y <= 63 ->
  let i := Z.shiftr y 3 * 128 + x in
  let cached := Z.testbit (load (ucScreen s) i) (Z.land y 7) in
  let wanted := negb (uchar c =? 0) in
  let s1 := snd (oledSetPixel x y c s) in
  let s2 := snd (oledSetPixel x y c s1) in
  (cached = wanted -> oledSetPixel x y c s = (OK, s)) /\
  oledSetPixel x y c s1 = (OK, s1) /\
  (cached = wanted -> bus s2 = bus s) /\
  (cached <> wanted ->
     bus s2 = bus s ++ [[0x00; uchar (Z.lor 0xb0 (Z.shiftr y 3))];
                        [0x00; uchar (Z.lor 0x00 (Z.land x 0xf))];
                        [0x00; uchar (Z.lor 0x10 (Z.land (Z.shiftr x 4) 0xf))];
                        [0x40; put_bit (load (ucScreen s) i) y c]] /\
     length (bus s2) = (length (bus s) + 4)%nat).
Proof.
  intros Hfile Hlen Hbytes Hx Hy i cached wanted s1 s2.
  destruct (oledSetPixel_idempotent s x y c Hfile Hlen Hbytes Hx Hy)
    as (Hnoop & Hchange & Hsecond & _).
  fold i cached wanted s1 in Hnoop, Hchange, Hsecond.
  assert (Hs2 : s2 = s1) by (unfold s2; rewrite Hsecond; reflexivity).
  split; [exact Hnoop |]. split; [exact Hsecond |]. split.
  - intros Hmatch. rewrite Hs2. unfold s1. rewrite (Hnoop Hmatch). reflexivity.
  - intros Hdiff. destruct (Hchange Hdiff) as [_ Hbus].
    rewrite Hs2, Hbus. split; [reflexivity |].
    rewrite length_app. cbn [position_cmds app length]. lia.
Qed.

Lemma oledSetPixel_twice_witness :
  bus (snd (oledSetPixel 5 9 1
              (snd (oledSetPixel 5 9 1 (set_file 3 (power_on []))))))
  = bus (set_file 3 (power_on []))
    ++ [[0x00; uchar (Z.lor 0xb0 (Z.shiftr 9 3))];
        [0x00; uchar (Z.lor 0x00 (Z.land 5 0xf))];
        [0x00; uchar (Z.lor 0x10 (Z.land (Z.shiftr 5 4) 0xf))];
        [0x40; put_bit (load (ucScreen (set_file 3 (power_on [])))
                          (Z.shiftr 9 3 * 128 + 5)) 9 1]].
Proof.
  destruct (oledSetPixel_twice (set_file 3 (power_on [])) 5 9 1)
    as (_ & _ & _ & H);
    [discriminate | reflexivity | apply Forall_replicate; lia | lia | lia |].
  apply H. vm_compute. discriminate.
Defined.

(** What [oledSetPixel] does when it refuses: nothing. *)
Lemma oledSetPixel_fail_unchanged x y c s :
  fst (oledSetPixel x y c s) = FAIL -> oledSetPixel x y c s = (FAIL, s).
Proof.
  unfold oledSetPixel.
  destruct (file_i2c s =? 0); [reflexivity |].
  destruct ((_ <? 0) || (_ >? 1023)); [reflexivity |]. cbv zeta.
  destruct (_ =? _); cbn; discriminate.
Qed.

(** Rows off the screen are refused whenever the column is on it. *)
Lemma oledSetPixel_rejects_rows x y c s :
  0 <= x <= 127 -> - 2 ^ 24 <= y < 0 \/ 63 < y <= 2 ^ 24 ->
  oledSetPixel x y c s = (FAIL, s).
Proof.
  intros Hx Hy. unfold oledSetPixel.
  destruct (file_i2c s =? 0); [reflexivity |].
  assert (Hi : to_int (to_int (Z.shiftr y 3 * 128) + x) = Z.shiftr y 3 * 128 + x
               /\ (Z.shiftr y 3 * 128 + x < 0 \/ 1023 < Z.shiftr y 3 * 128 + x)).
  { rewrite Z.shiftr_div_pow2 by lia. change (2 ^ 3) with 8.
    change (2 ^ 24) with 16777216 in Hy.
    assert (- 2097152 <= y / 8 <= 2097152 /\ (y < 0 -> y / 8 < 0) /\ (63 < y -> 7 < y / 8))
      by (Z.div_mod_to_equations; lia).
    rewrite to_int_add_l. rewrite to_int_id by (int_consts; lia). lia. }
  destruct Hi as [-> Hout].
  destruct (Z.ltb_spec (Z.shiftr y 3 * 128 + x) 0); [reflexivity |].
  destruct (Z.gtb_spec (Z.shiftr y 3 * 128 + x) 1023); [reflexivity | lia].
Qed.

(** C2 fails on the code: after a successful [oledInit], [oledSetPixel] at
    column 128 of row 0, and at column -1 of row 8, is accepted: it returns
    0, sends three commands and a data byte, and sets a bit in the cache
    byte of another page.  The guard tests the linear index only. *)
Theorem oledSetPixel_accepts_column_128 (F : list Z) :
  let s := snd (oledInit 3 0 0x3c (power_on F)) in
  let s1 := snd (oledSetPixel 128 0 1 s) in
  let s2 := snd (oledSetPixel (-1) 8 1 s) in
  fst (oledInit 3 0 0x3c (power_on F)) = OK /\
  fst (oledSetPixel 128 0 1 s) = OK /\
  bus s1 = bus s ++ [[0x00; 0xb0]; [0x00; 0x00]; [0x00; 0x18]; [0x40; 0x01]] /\
  load (ucScreen s) 128 = 0 /\ load (ucScreen s1) 128 = 1 /\
  iScreenOffset s1 = 129 /\
  fst (oledSetPixel (-1) 8 1 s) = OK /\
  bus s2 = bus s ++ [[0x00; 0xb1]; [0x00; 0x0f]; [0x00; 0x1f]; [0x40; 0x01]] /\
  load (ucScreen s2) 127 = 1.
Proof. cbv zeta. repeat split; reflexivity. Qed.

(** *** [oledWriteString] *)

Lemma length_block a off n : length (block a off n) = Z.to_nat n.
Proof. unfold block. rewrite length_fmap, length_seqZ. reflexivity. Qed.

Lemma filter_position_cmds x y : List.filter is_data (position_cmds x y) = [].
Proof. reflexivity. Qed.

(** The length clamp of [oledWriteString], free of wrap-around. *)
Lemma clamp_eq (msg : list Z) (x cap : Z) :
  in_int x -> Z.of_nat (length msg) + x <= int_max ->
  in_int (Z.of_nat (length msg)) -> 0 <= cap <= 16 ->
  (if to_int (to_int (Z.of_nat (length msg)) + x) >? cap
   then to_int (cap - x) else to_int (Z.of_nat (length msg)))
  = Z.min (Z.of_nat (length msg)) (cap - x).
Proof.
  intros Hx Hsum Hlen Hcap.
  rewrite (to_int_id (Z.of_nat (length msg))) by assumption.
  rewrite (to_int_id (Z.of_nat (length msg) + x)) by (int_consts; lia).
  destruct (Z.gtb_spec (Z.of_nat (length msg) + x) cap).
  - rewrite to_int_id by (int_consts; lia). lia.
  - lia.
Qed.

Section WriteString.
Variables (s : oled) (x y : Z) (msg : list Z).
Hypothesis ready : file_i2c s <> 0.
Hypothesis x_int : in_int x.
Hypothesis len_int : in_int (Z.of_nat (length msg)).
Hypothesis no_wrap : Z.of_nat (length msg) + x <= int_max.

Let len := Z.of_nat (length msg).

Lemma oledWriteString_small :
  oledWriteString x y msg 0 s =
    let s1 := oledSetPosition x y s in
    let n := Z.min len (16 - x) in
    if n <? 0 then (FAIL, s1)
    else (OK, for_loop n (write_small_glyph msg) s1).
Proof.
  unfold oledWriteString.
  destruct (Z.eqb_spec (file_i2c s) 0) as [? | _]; [contradiction |].
  cbn [Z.eqb negb]. cbv zeta. rewrite clamp_eq by (assumption || lia).
  reflexivity.
Qed.

Lemma oledWriteString_large bLarge :
  bLarge <> 0 ->
  oledWriteString x y msg bLarge s =
    let n := Z.min len (8 - x) in
    if n <? 0 then (FAIL, s)
    else (OK, for_loop n (write_large_glyph (to_int (x * 16)) y msg) s).
Proof.
  intros Hb. unfold oledWriteString.
  destruct (Z.eqb_spec (file_i2c s) 0) as [? | _]; [contradiction |].
  destruct (Z.eqb_spec bLarge 0) as [? | _]; [contradiction |].
  cbn [negb]. cbv zeta. rewrite clamp_eq by (assumption || lia).
  reflexivity.
Qed.

End WriteString.

(** The bus after [n] passes of the 8x8 loop. *)
Lemma small_loop_bus msg n s :
  0 <= n ->
  ucFont (for_loop n (write_small_glyph msg) s) = ucFont s /\
  bus (for_loop n (write_small_glyph msg) s)
  = bus s ++ (small_burst (ucFont s) msg <$> seqZ 0 n).
Proof.
  apply (for_loop_nat_ind
           (fun n t => ucFont t = ucFont s /\
                       bus t = bus s ++ (small_burst (ucFont s) msg <$> seqZ 0 n))).
  - split; [reflexivity |]. cbn. rewrite app_nil_r. reflexivity.
  - intros k t Hk [Hfont Hbus]. unfold write_small_glyph.
    rewrite oledWriteDataBlock_eq. cbn [ucFont bus]. split; [exact Hfont |].
    rewrite Hbus, Hfont, seqZ_snoc, fmap_app, <- app_assoc by lia. reflexivity.
Qed.

Lemma ucFont_oledSetPosition x y s : ucFont (oledSetPosition x y s) = ucFont s.
Proof. reflexivity. Qed.

Lemma ucFont_oledWriteDataBlock buf s : ucFont (oledWriteDataBlock buf s) = ucFont s.
Proof. reflexivity. Qed.

(** A block written at a position of its own. *)
Lemma positioned_block_eq x y buf s :
  oledWriteDataBlock buf (oledSetPosition x y s)
  = Oled (file_i2c s)
         (to_int (to_int (to_int (y * 128) + x) + Z.of_nat (length buf)))
         (mirror_screen (ucScreen s) (to_int (to_int (y * 128) + x)) buf)
         (ucFont s)
         (bus s ++ position_cmds x y ++ [0x40 :: buf])
         (mirrored s ++ [(to_int (to_int (y * 128) + x), Z.of_nat (length buf))]).
Proof.
  rewrite oledWriteDataBlock_eq, oledSetPosition_eq.
  cbn [file_i2c iScreenOffset ucScreen ucFont bus mirrored].
  rewrite <- app_assoc. reflexivity.
Qed.

Lemma write_large_glyph_bus x y msg i s :
  ucFont (write_large_glyph x y msg i s) = ucFont s /\
  bus (write_large_glyph x y msg i s) = bus s ++ large_trace (ucFont s) x y msg i.
Proof.
  unfold write_large_glyph, large_trace. cbv zeta.
  rewrite !ucFont_oledSetPosition, !ucFont_oledWriteDataBlock, !ucFont_oledSetPosition.
  rewrite !positioned_block_eq.
  cbn [file_i2c iScreenOffset ucScreen ucFont bus mirrored].
  split; [reflexivity |]. rewrite <- !app_assoc. reflexivity.
Qed.

Lemma large_loop_bus x y msg n s :
  0 <= n ->
  ucFont (for_loop n (write_large_glyph x y msg) s) = ucFont s /\
  bus (for_loop n (write_large_glyph x y msg) s)
  = bus s ++ concat (large_trace (ucFont s) x y msg <$> seqZ 0 n).
Proof.
  apply (for_loop_nat_ind
           (fun n t => ucFont t = ucFont s /\
                       bus t = bus s ++ concat (large_trace (ucFont s) x y msg <$> seqZ 0 n))).
  - split; [reflexivity |]. cbn. rewrite app_nil_r. reflexivity.
  - intros k t Hk [Hfont Hbus].
    destruct (write_large_glyph_bus x y msg k t) as [Hf Hb].
    split; [congruence |].
    rewrite Hb, Hbus, Hfont, seqZ_snoc, fmap_app, concat_app, <- app_assoc by lia.
    cbn [fmap list_fmap concat]. rewrite app_nil_r. reflexivity.
Qed.






(** C10: on an initialised driver, an 8x8 call at a column of 17 or more
    (the clamp [16 - x] is negative) returns -1 only after the three
    positioning commands were sent and [iScreenOffset] was set to
    [y * 128 + x], so the state has changed; a 16x32 call at a column of 9 or
    more returns -1 with the state as it was. *)
Theorem oledWriteString_small_fails_late s x y msg :
  file_i2c s <> 0 -> in_int x -> in_int (Z.of_nat (length msg)) ->
  Z.of_nat (length msg) + x <= int_max ->
  (17 <= x -> in_int (y * 128 + x) ->
     oledWriteString x y msg 0 s
     = (FAIL, Oled (file_i2c s) (y * 128 + x) (ucScreen s) (ucFont s)
                (bus s ++ [[0x00; uchar (Z.lor 0xb0 y)];
                           [0x00; uchar (Z.lor 0x00 (Z.land x 0xf))];
                           [0x00; uchar (Z.lor 0x10 (Z.land (Z.shiftr x 4) 0xf))]])
                (mirrored s)) /\
     snd (oledWriteString x y msg 0 s) <> s) /\
  (forall bLarge, bLarge <> 0 -> 9 <= x ->
     oledWriteString x y msg bLarge s = (FAIL, s)).
Proof.
  intros Hfile Hx Hlen Hsum. split.
  - intros H17 Hoff. rewrite oledWriteString_small by assumption. cbv zeta.
    destruct (Z.ltb_spec (Z.min (Z.of_nat (length msg)) (16 - x)) 0); [| lia].
    rewrite oledSetPosition_eq, to_int_add_l, (to_int_id (y * 128 + x)) by assumption.
    split; [reflexivity |]. cbn [snd]. intros Heq.
    apply (f_equal (fun t => length (bus t))) in Heq. cbn [bus] in Heq.
    rewrite length_app in Heq. cbn [position_cmds length] in Heq. lia.
  - intros bLarge Hb H9.
    rewrite (oledWriteString_large s x y msg Hfile Hx Hlen Hsum bLarge Hb). cbv zeta.
    destruct (Z.ltb_spec (Z.min (Z.of_nat (length msg)) (8 - x)) 0); [reflexivity | lia].
Qed.

(** *** Where [oledWriteString] writes in the cache *)

Lemma small_loop_mirrored msg n off s :
  0 <= n -> 0 <= off -> off + 8 * n <= 1024 -> iScreenOffset s = off ->
  iScreenOffset (for_loop n (write_small_glyph msg) s) = off + 8 * n /\
  mirrored (for_loop n (write_small_glyph msg) s)
  = mirrored s ++ ((fun i => (off + 8 * i, 8)) <$> seqZ 0 n).
Proof.
  intros Hn Hoff Hend Hstart.
  cut (forall k, 0 <= k -> k <= n ->
       iScreenOffset (for_loop k (write_small_glyph msg) s) = off + 8 * k /\
       mirrored (for_loop k (write_small_glyph msg) s)
       = mirrored s ++ ((fun i => (off + 8 * i, 8)) <$> seqZ 0 k)).
  { intros H. apply H; lia. }
  apply (for_loop_nat_ind
           (fun k t => k <= n ->
              iScreenOffset t = off + 8 * k /\
              mirrored t = mirrored s ++ ((fun i => (off + 8 * i, 8)) <$> seqZ 0 k))).
  - intros _. split; [lia |]. cbn. rewrite app_nil_r. reflexivity.
  - intros k t Hk IH Hle. destruct IH as [Hoffk Hmir]; [lia |].
    unfold write_small_glyph. rewrite oledWriteDataBlock_eq.
    cbn [iScreenOffset mirrored]. rewrite length_block, Hoffk, Hmir.
    change (Z.of_nat (Z.to_nat 8)) with 8. split.
    + rewrite to_int_id by (int_consts; lia). lia.
    + rewrite seqZ_snoc, fmap_app, <- app_assoc by lia. reflexivity.
Qed.

Lemma write_large_glyph_mirrored x y msg i s :
  0 <= y <= 5 -> 0 <= i -> 0 <= x -> x + i * 16 <= 112 ->
  mirrored (write_large_glyph x y msg i s) = mirrored s ++ large_writes x y i.
Proof.
  intros Hy Hi Hx Hpx. unfold write_large_glyph, large_writes. cbv zeta.
  rewrite !ucFont_oledSetPosition, !ucFont_oledWriteDataBlock, !ucFont_oledSetPosition.
  rewrite !positioned_block_eq.
  cbn [file_i2c iScreenOffset ucScreen ucFont bus mirrored].
  rewrite !length_block. change (Z.of_nat (Z.to_nat 16)) with 16.
  rewrite (to_int_id (i * 16)) by (int_consts; lia).
  rewrite (to_int_id (x + i * 16)) by (int_consts; lia).
  rewrite (to_int_id (y + 1)), (to_int_id (y + 2)) by (int_consts; lia).
  rewrite !to_int_add_l.
  rewrite !to_int_id by (int_consts; lia).
  rewrite <- !app_assoc. reflexivity.
Qed.

Lemma length_large_writes x y l :
  length (concat (large_writes x y <$> l)) = (3 * length l)%nat.
Proof.
  induction l as [| i l IH]; [reflexivity |].
  cbn [fmap list_fmap concat]. rewrite length_app, IH. cbn [large_writes length]. lia.
Qed.

Lemma large_loop_mirrored x y msg n s :
  0 <= n -> 0 <= y <= 5 -> 0 <= x -> x + n * 16 <= 128 ->
  mirrored (for_loop n (write_large_glyph x y msg) s)
  = mirrored s ++ concat (large_writes x y <$> seqZ 0 n).
Proof.
  intros Hn Hy Hx Hend.
  cut (forall k, 0 <= k -> k <= n ->
       mirrored (for_loop k (write_large_glyph x y msg) s)
       = mirrored s ++ concat (large_writes x y <$> seqZ 0 k)).
  { intros H. apply H; lia. }
  apply (for_loop_nat_ind
           (fun k t => k <= n ->
              mirrored t = mirrored s ++ concat (large_writes x y <$> seqZ 0 k))).
  - intros _. cbn. rewrite app_nil_r. reflexivity.
  - intros k t Hk IH Hle.
    rewrite write_large_glyph_mirrored by lia. rewrite IH by lia.
    rewrite seqZ_snoc, fmap_app, concat_app, <- app_assoc by lia.
    cbn [fmap list_fmap concat]. rewrite app_nil_r. reflexivity.
Qed.

(** C9: on an initialised driver, with [0 <= x] and a column and text length
    whose sum does not leave the range of [int], every copy that
    [oledWriteString] makes into the cache lies within indices 0..1023 when
    [0 <= y <= 7] for the 8x8 font and when [0 <= y <= 5] for the 16x32
    font; the call makes one copy for each 8x8 glyph and three for each
    16x32 glyph. *)
Theorem oledWriteString_cache_bounds s x y msg bLarge :
  file_i2c s <> 0 -> 0 <= x -> Z.of_nat (length msg) + x <= int_max ->
  0 <= y <= (if bLarge =? 0 then 7 else 5) ->
  let s' := snd (oledWriteString x y msg bLarge s) in
  let n := Z.min (Z.of_nat (length msg)) ((if bLarge =? 0 then 16 else 8) - x) in
  Forall in_cache (cache_writes s s') /\
  Z.of_nat (length (cache_writes s s'))
  = (if bLarge =? 0 then 1 else 3) * Z.max 0 n.
Proof.
  intros Hfile Hx Hsum Hy.
  assert (Hxi : in_int x) by (int_consts; lia).
  assert (Hli : in_int (Z.of_nat (length msg))) by (int_consts; lia).
  cbv zeta. unfold cache_writes.
  destruct (Z.eqb_spec bLarge 0) as [-> | Hb].
  - rewrite oledWriteString_small by assumption. cbv zeta.
    destruct (Z.ltb_spec (Z.min (Z.of_nat (length msg)) (16 - x)) 0) as [Hneg | Hpos];
      cbn [snd].
    + rewrite oledSetPosition_eq. cbn [mirrored]. rewrite drop_ge by lia.
      split; [constructor | cbn; lia].
    + destruct (small_loop_mirrored msg (Z.min (Z.of_nat (length msg)) (16 - x))
                  (y * 128 + x) (oledSetPosition x y s)) as [_ Hmir]; [lia .. | |].
      { rewrite oledSetPosition_eq. cbn [iScreenOffset].
        rewrite to_int_add_l. apply to_int_id. int_consts. lia. }
      rewrite Hmir, oledSetPosition_eq. cbn [mirrored]. rewrite drop_app_length.
      split.
      * rewrite Forall_fmap, Forall_seqZ. intros i Hi. unfold in_cache. cbn. lia.
      * rewrite length_fmap, length_seqZ. lia.
  - rewrite (oledWriteString_large s x y msg Hfile Hxi Hli Hsum bLarge Hb). cbv zeta.
    destruct (Z.ltb_spec (Z.min (Z.of_nat (length msg)) (8 - x)) 0) as [Hneg | Hpos];
      cbn [snd].
    + rewrite drop_ge by lia. split; [constructor | cbn; lia].
    + rewrite (to_int_id (x * 16)) by (int_consts; lia).
      rewrite large_loop_mirrored by lia. rewrite drop_app_length. split.
      * rewrite Forall_concat, Forall_fmap, Forall_seqZ. intros i Hi.
        unfold large_writes, in_cache. cbn [compose].
        repeat constructor; cbn [fst snd]; lia.
      * rewrite length_large_writes, length_seqZ. lia.
Qed.


Lemma oledWriteString_small_fails_late_witness :
  oledWriteString 17 2 [65] 0 (set_file 3 (power_on []))
  = (FAIL, Oled 3 273 (replicate 1024 0) []
             [[0x00; 0xb2]; [0x00; 0x01]; [0x00; 0x11]] []) /\
  oledWriteString 9 2 [65] 1 (set_file 3 (power_on []))
  = (FAIL, set_file 3 (power_on [])).
Proof.
  destruct (oledWriteString_small_fails_late (set_file 3 (power_on [])) 17 2 [65])
    as [Hsmall _];
    [discriminate | (vm_compute; split; discriminate) ..
     | (vm_compute; discriminate) |].
  destruct (oledWriteString_small_fails_late (set_file 3 (power_on [])) 9 2 [65])
    as [_ Hlarge];
    [discriminate | (vm_compute; split; discriminate) ..
     | (vm_compute; discriminate) |].
  split.
  - apply Hsmall; [lia | vm_compute; split; discriminate].
  - apply Hlarge; [discriminate | lia].
Defined.

Lemma oledWriteString_cache_bounds_witness :
  Forall in_cache
    (cache_writes (set_file 3 (power_on []))
       (snd (oledWriteString 7 5 [65; 66] 1 (set_file 3 (power_on []))))).
Proof.
  apply (oledWriteString_cache_bounds (set_file 3 (power_on [])) 7 5 [65; 66] 1);
    [discriminate | lia | (vm_compute; discriminate) | (cbn; lia)].
Defined.

(** The bound on [y] for the 16x32 font is sharp: at page 6 the third block
    of a glyph is copied to indices 1024..1039, past the cache. *)
Example large_font_page_6 :
  cache_writes (set_file 3 (power_on []))
    (snd (oledWriteString 0 6 [65] 1 (set_file 3 (power_on []))))
  = [(768, 16); (896, 16); (1024, 16)].
Proof. reflexivity. Qed.

(** ** Further properties of the driver *)

(** *** Lifecycle: [oledShutdown], [oledSetContrast], [oledInit] *)

(** [oledShutdown] on an initialised driver sends the display-off command
    [0x00 0xAE] and clears the handle, touching nothing else; on a driver
    that is not initialised it does nothing; so a second shutdown is a
    no-op. *)
Theorem oledShutdown_once s :
  (file_i2c s = 0 -> oledShutdown s = s) /\
  (file_i2c s <> 0 ->
     oledShutdown s
     = Oled 0 (iScreenOffset s) (ucScreen s) (ucFont s)
            (bus s ++ [[0x00; 0xAE]]) (mirrored s)) /\
  oledShutdown (oledShutdown s) = oledShutdown s.
Proof.
  unfold oledShutdown.
  destruct (Z.eqb_spec (file_i2c s) 0) as [H0 | Hne].
  - rewrite H0. repeat split; try reflexivity. intros H. contradiction.
  - repeat split; try reflexivity. intros H. contradiction.
Qed.

Lemma oledShutdown_once_witness :
  oledShutdown (set_file 3 (power_on []))
  = Oled 0 0 (replicate 1024 0) [] [[0x00; 0xAE]] [] /\
  oledShutdown (power_on []) = power_on [].
Proof.
  destruct (oledShutdown_once (set_file 3 (power_on []))) as (_ & Hon & _).
  destruct (oledShutdown_once (power_on [])) as (Hoff & _ & _).
  split; [apply Hon; discriminate | apply Hoff; reflexivity].
Defined.

Lemma file_i2c_oledShutdown s : file_i2c (oledShutdown s) = 0.
Proof.
  unfold oledShutdown. destruct (Z.eqb_spec (file_i2c s) 0); [assumption | reflexivity].
Qed.

(** Every call on a driver without a handle is refused and changes nothing. *)
Lemma not_initialised_refuses t x y c msg b v :
  file_i2c t = 0 ->
  oledSetContrast v t = (FAIL, t) /\
  oledSetPixel x y c t = (FAIL, t) /\
  oledWriteString x y msg b t = (FAIL, t) /\
  oledFill v t = (FAIL, t).
Proof.
  intros H. unfold oledSetContrast, oledSetPixel, oledWriteString, oledFill.
  rewrite H. repeat split; reflexivity.
Qed.

(** After [oledShutdown], whatever the state before it, [oledSetContrast],
    [oledSetPixel], [oledWriteString] and [oledFill] all return -1 and leave
    the state, bus included, as the shutdown left it. *)
Theorem shut_down_driver_refuses s x y c msg b v :
  let t := oledShutdown s in
  oledSetContrast v t = (FAIL, t) /\
  oledSetPixel x y c t = (FAIL, t) /\
  oledWriteString x y msg b t = (FAIL, t) /\
  oledFill v t = (FAIL, t).
Proof. apply not_initialised_refuses. apply file_i2c_oledShutdown. Qed.

(** The handle doubles as the "initialised" flag.  When [open] returns a
    positive descriptor and [ioctl] succeeds, the driver is initialised: the
    next call passes its handle test.  When [open] returns descriptor 0,
    [oledInit] still sends the burst and returns 0, but the driver counts as
    not initialised and the next call is refused. *)
Theorem oledInit_handle fd rc iAddr s v :
  0 <= rc ->
  (0 < fd -> fst (oledInit fd rc iAddr s) = OK /\
             fst (oledSetContrast v (snd (oledInit fd rc iAddr s))) = OK) /\
  (fd = 0 -> fst (oledInit fd rc iAddr s) = OK /\
             bus (snd (oledInit fd rc iAddr s)) = bus s ++ [initbuf] /\
             fst (oledSetContrast v (snd (oledInit fd rc iAddr s))) = FAIL).
Proof.
  intros Hrc. unfold oledInit.
  destruct (Z.ltb_spec rc 0); [lia |]. split.
  - intros Hfd. destruct (Z.ltb_spec fd 0); [lia |]. cbn [fst snd].
    split; [reflexivity |]. unfold oledSetContrast. cbn [file_i2c set_font bus_write set_file].
    destruct (Z.eqb_spec fd 0); [lia | reflexivity].
  - intros ->. cbn [Z.ltb Z.compare fst snd]. repeat split; reflexivity.
Qed.

Lemma oledInit_handle_witness :
  fst (oledSetContrast 1 (snd (oledInit 3 0 0x3c (power_on [])))) = OK /\
  fst (oledSetContrast 1 (snd (oledInit 0 0 0x3c (power_on [])))) = FAIL.
Proof.
  destruct (oledInit_handle 3 0 0x3c (power_on []) 1) as [Hpos _]; [lia |].
  destruct (oledInit_handle 0 0 0x3c (power_on []) 1) as [_ Hzero]; [lia |].
  split; [apply Hpos; lia | apply Hzero; reflexivity].
Defined.

(** *** Addressing and the cache mirror *)

(** The column and page tests of [oledSetPosition], as one test per value. *)
Lemma position_bytes_ok :
  forallb (fun x => (uchar (Z.lor 0x00 (Z.land x 0xf)) =? x mod 16)
                    && (uchar (Z.lor 0x10 (Z.land (Z.shiftr x 4) 0xf)) =? 0x10 + x / 16))
          (seqZ 0 128) = true /\
  forallb (fun y => uchar (Z.lor 0xb0 y) =? 0xb0 + y) (seqZ 0 8) = true.
Proof. split; vm_compute; reflexivity. Qed.

(** For a column 0..127 and a page 0..7, [oledSetPosition] sends the page
    command [0xB0 + page], the low nibble of the column and [0x10] plus its
    high nibble, from which the column is recovered as
    [low + 16 * high]; the cursor becomes [page * 128 + column]; nothing
    else changes. *)
Theorem oledSetPosition_encoding x y s :
  0 <= x <= 127 -> 0 <= y <= 7 ->
  oledSetPosition x y s
  = Oled (file_i2c s) (y * 128 + x) (ucScreen s) (ucFont s)
         (bus s ++ [[0x00; 0xb0 + y]; [0x00; x mod 16]; [0x00; 0x10 + x / 16]])
         (mirrored s) /\
  x mod 16 + 16 * (x / 16) = x /\ 0 <= x mod 16 <= 15 /\ 0 <= x / 16 <= 7.
Proof.
  intros Hx Hy. destruct position_bytes_ok as [Hcol Hpage].
  rewrite forallb_forall in Hcol, Hpage.
  specialize (Hcol x). rewrite <- list_elem_of_In, elem_of_seqZ in Hcol.
  specialize (Hcol ltac:(lia)). apply andb_prop in Hcol. destruct Hcol as [Hlo Hhi].
  specialize (Hpage y). rewrite <- list_elem_of_In, elem_of_seqZ in Hpage.
  specialize (Hpage ltac:(lia)).
  apply Z.eqb_eq in Hlo, Hhi, Hpage.
  split.
  - rewrite oledSetPosition_eq. unfold position_cmds. rewrite Hlo, Hhi, Hpage.
    rewrite to_int_add_l, to_int_id by (int_consts; lia). reflexivity.
  - Z.div_mod_to_equations. lia.
Qed.

Lemma oledSetPosition_encoding_witness :
  oledSetPosition 100 5 (set_file 3 (power_on []))
  = Oled 3 (5 * 128 + 100) (replicate 1024 0) []
         [[0x00; 0xb0 + 5]; [0x00; 100 mod 16]; [0x00; 0x10 + 100 / 16]] [].
Proof.
  apply (oledSetPosition_encoding 100 5 (set_file 3 (power_on []))); lia.
Defined.

Lemma load_mirror_in scr off buf k :
  0 <= off -> off <= k < off + Z.of_nat (length buf) ->
  k < Z.of_nat (length scr) ->
  load (mirror_screen scr off buf) k = load buf (k - off).
Proof.
  intros Hoff Hk Hlen. unfold mirror_screen.
  destruct (Z.ltb_spec off 0); [lia |]. apply load_memcpy_in; lia.
Qed.

Lemma load_mirror_out scr off buf k :
  0 <= off -> 0 <= k -> k < off \/ off + Z.of_nat (length buf) <= k ->
  load (mirror_screen scr off buf) k = load scr k.
Proof.
  intros Hoff Hk Hout. unfold mirror_screen.
  destruct (Z.ltb_spec off 0); [lia |]. apply load_memcpy_out; lia.
Qed.

Lemma length_mirror_screen scr off buf :
  length (mirror_screen scr off buf) = length scr.
Proof. unfold mirror_screen. destruct (off <? 0); apply length_memcpy. Qed.

(** A data block of at most 128 bytes, the room of [ucTemp[129]], that fits
    in the cache at the cursor is sent as one
    transmission, the data introducer [0x40] and the block, and is mirrored:
    afterwards the cache holds the block at the old cursor, is unchanged
    elsewhere, keeps its size, and the cursor has advanced by the length of
    the block. *)
Theorem oledWriteDataBlock_mirrors buf s :
  Z.of_nat (length buf) <= 128 ->
  0 <= iScreenOffset s ->
  iScreenOffset s + Z.of_nat (length buf) <= Z.of_nat (length (ucScreen s)) ->
  Z.of_nat (length (ucScreen s)) = 1024 ->
  let s' := oledWriteDataBlock buf s in
  bus s' = bus s ++ [0x40 :: buf] /\
  iScreenOffset s' = iScreenOffset s + Z.of_nat (length buf) /\
  length (ucScreen s') = length (ucScreen s) /\
  (forall k, 0 <= k < Z.of_nat (length buf) ->
     load (ucScreen s') (iScreenOffset s + k) = load buf k) /\
  (forall k, 0 <= k ->
     k < iScreenOffset s \/ iScreenOffset s + Z.of_nat (length buf) <= k ->
     load (ucScreen s') k = load (ucScreen s) k).
Proof.
  intros Hroom Hoff Hfit Hlen. cbv zeta. rewrite oledWriteDataBlock_eq.
  cbn [file_i2c iScreenOffset ucScreen ucFont bus mirrored].
  split; [reflexivity |]. split; [apply to_int_id; int_consts; lia |].
  split; [apply length_mirror_screen |]. split.
  - intros k Hk. rewrite load_mirror_in by lia. f_equal. lia.
  - intros k Hk Hout. apply load_mirror_out; assumption.
Qed.

Lemma oledWriteDataBlock_mirrors_witness :
  load (ucScreen (oledWriteDataBlock [7; 8; 9] (set_file 3 (power_on []))))
       (iScreenOffset (set_file 3 (power_on [])) + 2)
  = load [7; 8; 9] 2.
Proof.
  destruct (oledWriteDataBlock_mirrors [7; 8; 9] (set_file 3 (power_on [])))
    as (_ & _ & _ & Hin & _); [cbn; lia | cbn; lia | cbn; lia | reflexivity |].
  apply Hin. cbn. lia.
Defined.

(** *** More on [oledSetPixel] *)

Lemma testbit_uchar z k : 0 <= k < 8 -> Z.testbit (uchar z) k = Z.testbit z k.
Proof.
  intros Hk. unfold uchar. change 256 with (2 ^ 8).
  apply Z.mod_pow2_bits_low. lia.
Qed.

(** [put_bit] leaves the other seven bits of the byte as they are. *)
Lemma put_bit_other_bits u y c k :
  0 <= k < 8 -> k <> Z.land y 7 ->
  Z.testbit (put_bit u y c) k = Z.testbit u k.
Proof.
  intros Hk Hne. pose proof (land_7_range y) as Hb.
  assert (Hclr : Z.testbit (uchar (Z.land u (Z.lnot (Z.shiftl 1 (Z.land y 7))))) k
                 = Z.testbit u k).
  { rewrite testbit_uchar, Z.land_spec, Z.lnot_spec by lia.
    rewrite Z.shiftl_1_l, Z.pow2_bits_false by lia.
    apply andb_true_r. }
  unfold put_bit. destruct (uchar c =? 0); [exact Hclr |].
  rewrite testbit_uchar, Z.lor_spec, Hclr by lia.
  rewrite Z.shiftl_1_l, Z.pow2_bits_false by lia.
  apply orb_false_r.
Qed.

Lemma put_bit_range u y c : 0 <= put_bit u y c < 256.
Proof. unfold put_bit. destruct (uchar c =? 0); apply uchar_range. Qed.

Lemma mirror_screen_one scr i v :
  0 <= i -> mirror_screen scr i [v] = <[Z.to_nat i := v]> scr.
Proof.
  intros Hi. unfold mirror_screen. destruct (Z.ltb_spec i 0); [lia |]. reflexivity.
Qed.

(** The page and the bit of a row. *)
Lemma row_split y : 0 <= y -> y = Z.shiftr y 3 * 8 + Z.land y 7.
Proof.
  intros Hy. rewrite Z.shiftr_div_pow2 by lia. change 7 with (Z.ones 3).
  rewrite Z.land_ones by lia. change (2 ^ 3) with 8.
  Z.div_mod_to_equations. lia.
Qed.

(** On an initialised driver with a well-formed cache, [oledSetPixel] on an
    in-range pixel changes that pixel only: every other pixel of the screen
    reads back as before, the cache keeps its 1024 bytes, each still an
    [unsigned char], and the font is untouched. *)
Theorem oledSetPixel_frame s x y c :
  file_i2c s <> 0 ->
  length (ucScreen s) = 1024%nat ->
  Forall (fun b => 0 <= b < 256) (ucScreen s) ->
  0 <= x <= 127 -> 0 <= y <= 63 ->
  let s1 := snd (oledSetPixel x y c s) in
  length (ucScreen s1) = 1024%nat /\
  Forall (fun b => 0 <= b < 256) (ucScreen s1) /\
  ucFont s1 = ucFont s /\
  forall x' y', 0 <= x' <= 127 -> 0 <= y' <= 63 -> (x', y') <> (x, y) ->
    Z.testbit (load (ucScreen s1) (Z.shiftr y' 3 * 128 + x')) (Z.land y' 7)
    = Z.testbit (load (ucScreen s) (Z.shiftr y' 3 * 128 + x')) (Z.land y' 7).
Proof.
  intros Hfile Hlen Hbytes Hx Hy s1.
  destruct (pixel_index x y Hx Hy) as [Hi Hrange].
  pose proof (oledSetPixel_in x y c s Hfile ltac:(rewrite Hi; lia)) as Hcall.
  cbv zeta in Hcall. rewrite Hi in Hcall.
  set (i := Z.shiftr y 3 * 128 + x) in *.
  set (uc := put_bit (load (ucScreen s) i) y c) in *.
  destruct (uc =? load (ucScreen s) i).
  - assert (Hs1 : s1 = s) by (unfold s1; rewrite Hcall; reflexivity).
    rewrite Hs1. repeat split; auto.
  - assert (Hscr : ucScreen s1 = <[Z.to_nat i := uc]> (ucScreen s)).
    { unfold s1. rewrite Hcall. cbn [snd].
      rewrite oledWriteDataBlock_eq, oledSetPosition_eq.
      cbn [file_i2c iScreenOffset ucScreen ucFont bus mirrored].
      rewrite Hi. apply mirror_screen_one. lia. }
    assert (Hfont : ucFont s1 = ucFont s) by (unfold s1; rewrite Hcall; reflexivity).
    rewrite Hscr. split; [| split; [| split]].
    + rewrite length_insert. exact Hlen.
    + apply Forall_insert; [exact Hbytes | apply put_bit_range].
    + exact Hfont.
    + intros x' y' Hx' Hy' Hother.
      destruct (pixel_index x' y' Hx' Hy') as [_ Hrange'].
      set (i' := Z.shiftr y' 3 * 128 + x') in *.
      destruct (Z.eq_dec i' i) as [Heq | Hne].
      * (* the same byte, another bit *)
        rewrite Heq. unfold load at 1.
        rewrite list_lookup_insert_eq by lia. cbn [default].
        apply put_bit_other_bits; [apply land_7_range |].
        intros Hbit. apply Hother.
        pose proof (row_split y ltac:(lia)) as Ey.
        pose proof (row_split y' ltac:(lia)) as Ey'.
        pose proof (land_7_range y). pose proof (land_7_range y').
        assert (Z.shiftr y' 3 = Z.shiftr y 3 /\ x' = x) as [Ep Ex]
          by (unfold i', i in Heq; lia).
        f_equal; lia.
      * unfold load. rewrite list_lookup_insert_ne by lia. reflexivity.
Qed.

Lemma oledSetPixel_frame_witness :
  Z.testbit (load (ucScreen (snd (oledSetPixel 5 9 1 (set_file 3 (power_on [])))))
               (Z.shiftr 10 3 * 128 + 5)) (Z.land 10 7)
  = Z.testbit (load (ucScreen (set_file 3 (power_on [])))
               (Z.shiftr 10 3 * 128 + 5)) (Z.land 10 7).
Proof.
  destruct (oledSetPixel_frame (set_file 3 (power_on [])) 5 9 1)
    as (_ & _ & _ & H);
    [discriminate | reflexivity | apply Forall_replicate; lia | lia | lia |].
  apply H; [lia | lia | intros E; inversion E].
Defined.

(** The guard of [oledSetPixel], for coordinates far from the limits of
    [int]: an initialised driver refuses the call exactly when the linear
    index [(y >> 3) * 128 + x] leaves 0..1023, whatever the column, and a
    refused call changes nothing. *)
Theorem oledSetPixel_guard s x y c :
  file_i2c s <> 0 ->
  - 2 ^ 24 <= x <= 2 ^ 24 -> - 2 ^ 24 <= y <= 2 ^ 24 ->
  (fst (oledSetPixel x y c s) = FAIL <->
     Z.shiftr y 3 * 128 + x < 0 \/ 1023 < Z.shiftr y 3 * 128 + x) /\
  (fst (oledSetPixel x y c s) = FAIL -> snd (oledSetPixel x y c s) = s).
Proof.
  intros Hfile Hx Hy. change (2 ^ 24) with 16777216 in *.
  assert (Hi : to_int (to_int (Z.shiftr y 3 * 128) + x) = Z.shiftr y 3 * 128 + x).
  { rewrite Z.shiftr_div_pow2 by lia. change (2 ^ 3) with 8.
    assert (- 2097152 <= y / 8 <= 2097152) by (Z.div_mod_to_equations; lia).
    rewrite to_int_add_l. apply to_int_id. int_consts. lia. }
  split.
  - unfold oledSetPixel.
    destruct (Z.eqb_spec (file_i2c s) 0) as [? | _]; [contradiction |].
    rewrite Hi.
    destruct (Z.ltb_spec (Z.shiftr y 3 * 128 + x) 0) as [Hlt | Hge]; cbn [orb].
    + cbn [fst]. split; [intros _; lia | reflexivity].
    + destruct (Z.gtb_spec (Z.shiftr y 3 * 128 + x) 1023) as [Hgt | Hle].
      * cbn [fst]. split; [intros _; lia | reflexivity].
      * cbv zeta. destruct (_ =? _); cbn [fst]; unfold OK, FAIL;
          (split; [discriminate | lia]).
  - intros Hfail. rewrite (oledSetPixel_fail_unchanged x y c s Hfail). reflexivity.
Qed.

Lemma oledSetPixel_guard_witness :
  fst (oledSetPixel 0 64 1 (set_file 3 (power_on []))) = FAIL.
Proof.
  destruct (oledSetPixel_guard (set_file 3 (power_on [])) 0 64 1) as [[_ H] _];
    [discriminate | (change (2 ^ 24) with 16777216; lia) ..|].
  apply H. right. vm_compute. reflexivity.
Defined.

(** ** Further properties of the font rotation *)

Section FontMore.
Import Font FontShape FontFacts.

Variable F : list Z.
Hypothesis font_size : 17920 <= Z.of_nat (length F).

Lemma load_via_ptr (A : list Z) a k : 0 <= a <= k -> load A k = load (ptr A a) (k - a).
Proof. intros H. rewrite load_ptr by lia. f_equal. lia. Qed.

Lemma RotateFont90_outside :
  length (RotateFont90 F) = length F /\
  forall k, 2048 <= k < 9728 \/ 17920 <= k ->
    load (RotateFont90 F) k = load F k.
Proof.
  unfold RotateFont90, RotateFont90_from.
  destruct (rotate_small_inv F (replicate 64 0)) as (HlF & Hlt & Hptr & _);
    [lia | cbn; lia |].
  destruct (rotate_small (F, replicate 64 0)) as [F1 tmp1]. cbn [fst snd] in *.
  destruct (rotate_large_inv F1 tmp1) as (HlF2 & _ & Hlow & Hptr2 & _);
    [lia | rewrite Hlt; reflexivity |].
  destruct (rotate_large (F1, tmp1)) as [F2 tmp2]. cbn [fst snd] in *.
  split; [congruence |].
  intros k [Hmid | Hhigh].
  - rewrite Hlow by (unfold large_base; lia).
    rewrite (load_via_ptr F1 (256 * 8)), (load_via_ptr F (256 * 8)) by lia.
    rewrite Hptr. reflexivity.
  - unfold large_base in Hptr2.
    rewrite (load_via_ptr F2 (9728 + 128 * 64)), (load_via_ptr F (9728 + 128 * 64)) by lia.
    rewrite Hptr2. rewrite (ptr_from_2048 F F1) by (lia || exact Hptr).
    reflexivity.
Qed.

(** [RotateFont90] keeps the size of the table and writes only the 2048
    bytes of the 8x8 font and the 8192 bytes of the 16x32 font: the bytes at
    offsets 2048..9727 and from 17920 on are as they were. *)
Theorem RotateFont90_frame :
  length (RotateFont90 F) = length F /\
  forall k, 2048 <= k < 9728 \/ 17920 <= k ->
    load (RotateFont90 F) k = load F k.
Proof. exact RotateFont90_outside. Qed.

(** Bit [x] of byte [7 - y] of a rotated 8x8 glyph is bit [y] of byte [x]
    of the glyph before. *)
Lemma rotated_small_bit (G : list Z) i x y :
  17920 <= Z.of_nat (length G) ->
  0 <= i < 256 -> 0 <= x < 8 -> 0 <= y < 8 ->
  Z.testbit (load (RotateFont90 G) (i * 8 + (7 - y))) x
  = Z.testbit (load G (i * 8 + x)) y.
Proof.
  intros HG Hi Hx Hy. unfold RotateFont90.
  rewrite rotated_small by (reflexivity || lia).
  replace (7 - (7 - y)) with y by lia.
  rewrite small_row_pack, pack_bit by lia.
  rewrite load_ptr by lia. reflexivity.
Qed.

(** The rotation is not its own inverse: run twice, as a second [oledInit]
    does, it leaves every 8x8 glyph turned by 180 degrees, byte [k] holding
    the bits of the original byte [7 - k] in reverse order. *)
Theorem RotateFont90_twice i k x :
  0 <= i < 256 -> 0 <= k < 8 -> 0 <= x < 8 ->
  Z.testbit (load (RotateFont90 (RotateFont90 F)) (i * 8 + k)) x
  = Z.testbit (load F (i * 8 + (7 - k))) (7 - x).
Proof.
  intros Hi Hk Hx.
  assert (Hlen : 17920 <= Z.of_nat (length (RotateFont90 F)))
    by (rewrite (proj1 RotateFont90_outside); exact font_size).
  replace (i * 8 + k) with (i * 8 + (7 - (7 - k))) by lia.
  rewrite (rotated_small_bit (RotateFont90 F)) by lia.
  replace (i * 8 + x) with (i * 8 + (7 - (7 - x))) by lia.
  rewrite (rotated_small_bit F) by lia. reflexivity.
Qed.

End FontMore.

Lemma RotateFont90_frame_witness :
  load (Font.RotateFont90 Font.dot_font) 5000 = load Font.dot_font 5000.
Proof.
  apply (RotateFont90_frame Font.dot_font); [vm_compute; discriminate | lia].
Defined.

Lemma RotateFont90_twice_witness :
  Z.testbit (load (Font.RotateFont90 (Font.RotateFont90 Font.dot_font)) (0 * 8 + 7)) 7
  = Z.testbit (load Font.dot_font (0 * 8 + (7 - 7))) (7 - 7).
Proof.
  apply (RotateFont90_twice Font.dot_font); [vm_compute; discriminate | lia ..].
Defined.

(** *** What [oledWriteString] leaves in the cache *)

Lemma load_block a off n k : 0 <= k < n -> load (block a off n) k = load a (off + k).
Proof.
  intros Hk. unfold block. unfold load at 1.
  rewrite list_lookup_fmap, lookup_seqZ_lt by lia.
  cbn [fmap option_fmap option_map default]. unfold id.
  replace (0 + Z.of_nat (Z.to_nat k)) with k by lia. reflexivity.
Qed.

(** After [n] passes of the 8x8 loop started with the cursor at [off]. *)
Lemma small_loop_cache msg n off s :
  0 <= n -> 0 <= off -> off + 8 * n <= 1024 ->
  length (ucScreen s) = 1024%nat -> iScreenOffset s = off ->
  let s' := for_loop n (write_small_glyph msg) s in
  length (ucScreen s') = 1024%nat /\
  (forall i k, 0 <= i < n -> 0 <= k < 8 ->
     load (ucScreen s') (off + 8 * i + k)
     = load (ucFont s) (uchar (load msg i) * 8 + k)) /\
  (forall j, 0 <= j -> j < off \/ off + 8 * n <= j ->
     load (ucScreen s') j = load (ucScreen s) j).
Proof.
  intros Hn Hoff Hend Hlen Hstart. cbv zeta.
  cut (forall m, 0 <= m -> m <= n ->
       iScreenOffset (for_loop m (write_small_glyph msg) s) = off + 8 * m /\
       ucFont (for_loop m (write_small_glyph msg) s) = ucFont s /\
       length (ucScreen (for_loop m (write_small_glyph msg) s)) = 1024%nat /\
       (forall i k, 0 <= i < m -> 0 <= k < 8 ->
          load (ucScreen (for_loop m (write_small_glyph msg) s)) (off + 8 * i + k)
          = load (ucFont s) (uchar (load msg i) * 8 + k)) /\
       (forall j, 0 <= j -> j < off \/ off + 8 * m <= j ->
          load (ucScreen (for_loop m (write_small_glyph msg) s)) j
          = load (ucScreen s) j)).
  { intros H. destruct (H n) as (_ & _ & H1 & H2 & H3); [lia .. |]. auto. }
  apply (for_loop_nat_ind
    (fun m t => m <= n ->
       iScreenOffset t = off + 8 * m /\ ucFont t = ucFont s /\
       length (ucScreen t) = 1024%nat /\
       (forall i k, 0 <= i < m -> 0 <= k < 8 ->
          load (ucScreen t) (off + 8 * i + k)
          = load (ucFont s) (uchar (load msg i) * 8 + k)) /\
       (forall j, 0 <= j -> j < off \/ off + 8 * m <= j ->
          load (ucScreen t) j = load (ucScreen s) j))).
  - intros _. repeat split; auto; lia.
  - intros m t Hm IH Hle. destruct IH as (Ho & Hf & Hl & Hin & Hout); [lia |].
    unfold write_small_glyph. rewrite oledWriteDataBlock_eq.
    cbn [file_i2c iScreenOffset ucScreen ucFont bus mirrored].
    rewrite length_block, Ho, Hf. change (Z.of_nat (Z.to_nat 8)) with 8.
    split; [rewrite to_int_id by (int_consts; lia); lia |].
    split; [reflexivity |].
    split; [rewrite length_mirror_screen; exact Hl |].
    split.
    + intros i k Hi Hk. destruct (Z.eq_dec i m) as [-> | Hne].
      * rewrite load_mirror_in by (rewrite ?length_block; lia).
        rewrite load_block by lia. f_equal. lia.
      * rewrite load_mirror_out by (rewrite ?length_block; lia).
        apply Hin; lia.
    + intros j Hj Hjout.
      rewrite load_mirror_out by (rewrite ?length_block; lia).
      apply Hout; lia.
Qed.

(** A successful 8x8 call on page [y] leaves, for each character [i] it
    emits, the eight bytes of the character's glyph in the cache at
    [y * 128 + x + 8 i]: the start column is [x] pixels, not [x] cells; the
    rest of the cache is unchanged. *)
Theorem oledWriteString_small_cache s x y msg :
  file_i2c s <> 0 -> length (ucScreen s) = 1024%nat ->
  0 <= x <= 16 -> 0 <= y <= 7 -> Z.of_nat (length msg) + x <= int_max ->
  let n := Z.min (Z.of_nat (length msg)) (16 - x) in
  let s' := snd (oledWriteString x y msg 0 s) in
  fst (oledWriteString x y msg 0 s) = OK /\
  (forall i k, 0 <= i < n -> 0 <= k < 8 ->
     load (ucScreen s') (y * 128 + x + 8 * i + k)
     = load (ucFont s) (uchar (load msg i) * 8 + k)) /\
  (forall j, 0 <= j -> j < y * 128 + x \/ y * 128 + x + 8 * n <= j ->
     load (ucScreen s') j = load (ucScreen s) j).
Proof.
  intros Hfile Hlen Hx Hy Hsum.
  assert (Hxi : in_int x) by (int_consts; lia).
  assert (Hli : in_int (Z.of_nat (length msg))) by (int_consts; lia).
  cbv zeta. rewrite oledWriteString_small by assumption. cbv zeta.
  destruct (Z.ltb_spec (Z.min (Z.of_nat (length msg)) (16 - x)) 0); [lia |].
  cbn [fst snd]. split; [reflexivity |].
  destruct (small_loop_cache msg (Z.min (Z.of_nat (length msg)) (16 - x))
              (y * 128 + x) (oledSetPosition x y s)) as (_ & Hin & Hout);
    [lia | lia | lia | exact Hlen | |].
  { rewrite oledSetPosition_eq. cbn [iScreenOffset].
    rewrite to_int_add_l. apply to_int_id. int_consts. lia. }
  split; [exact Hin | exact Hout].
Qed.

Lemma oledWriteString_small_cache_witness :
  fst (oledWriteString 15 2 [65; 66; 67] 0 (set_file 3 (power_on []))) = OK.
Proof.
  apply (oledWriteString_small_cache (set_file 3 (power_on [])) 15 2 [65; 66; 67]);
    [discriminate | reflexivity | lia | lia | vm_compute; discriminate].
Defined.

(** A block written at a position of its own, seen from the cache. *)
Lemma positioned_block_cache px y buf s :
  0 <= px -> 0 <= y -> y * 128 + px + Z.of_nat (length buf) <= 1024 ->
  length (ucScreen s) = 1024%nat ->
  let s' := oledWriteDataBlock buf (oledSetPosition px y s) in
  length (ucScreen s') = 1024%nat /\
  ucFont s' = ucFont s /\
  (forall k, 0 <= k < Z.of_nat (length buf) ->
     load (ucScreen s') (y * 128 + px + k) = load buf k) /\
  (forall j, 0 <= j ->
     j < y * 128 + px \/ y * 128 + px + Z.of_nat (length buf) <= j ->
     load (ucScreen s') j = load (ucScreen s) j).
Proof.
  intros Hpx Hy Hfit Hlen. cbv zeta. rewrite positioned_block_eq.
  cbn [file_i2c iScreenOffset ucScreen ucFont bus mirrored].
  rewrite to_int_add_l, (to_int_id (y * 128 + px)) by (int_consts; lia).
  split; [rewrite length_mirror_screen; exact Hlen |].
  split; [reflexivity |]. split.
  - intros k Hk. rewrite load_mirror_in by lia. f_equal. lia.
  - intros j Hj Hout. apply load_mirror_out; lia.
Qed.

(** One pass of the 16x32 loop, with the wrap-around gone. *)
Lemma write_large_glyph_clean x y msg i s :
  0 <= y <= 5 -> 0 <= i -> 0 <= x -> x + i * 16 <= 112 ->
  write_large_glyph x y msg i s =
    let g := Font.large_base + uchar (load msg i) * 64 in
    let px := x + i * 16 in
    oledWriteDataBlock (block (ucFont s) (g + 32) 16)
      (oledSetPosition px (y + 2)
         (oledWriteDataBlock (block (ucFont s) (g + 16) 16)
            (oledSetPosition px (y + 1)
               (oledWriteDataBlock (block (ucFont s) g 16)
                  (oledSetPosition px y s))))).
Proof.
  intros Hy Hi Hx Hpx. unfold write_large_glyph. cbv zeta.
  rewrite !ucFont_oledSetPosition, !ucFont_oledWriteDataBlock, !ucFont_oledSetPosition.
  rewrite (to_int_id (i * 16)) by (int_consts; lia).
  rewrite (to_int_id (x + i * 16)) by (int_consts; lia).
  rewrite (to_int_id (y + 1)), (to_int_id (y + 2)) by (int_consts; lia).
  reflexivity.
Qed.

(** What one pass of the 16x32 loop leaves in the cache: the first three
    16-byte bands of the glyph, on three consecutive pages. *)
Lemma write_large_glyph_cache x y msg i s :
  0 <= y <= 5 -> 0 <= i -> 0 <= x -> x + i * 16 <= 112 ->
  length (ucScreen s) = 1024%nat ->
  let s' := write_large_glyph x y msg i s in
  let g := Font.large_base + uchar (load msg i) * 64 in
  length (ucScreen s') = 1024%nat /\
  ucFont s' = ucFont s /\
  (forall p k, 0 <= p <= 2 -> 0 <= k < 16 ->
     load (ucScreen s') ((y + p) * 128 + (x + i * 16) + k)
     = load (ucFont s) (g + 16 * p + k)) /\
  (forall j, 0 <= j ->
     (forall p, 0 <= p <= 2 ->
        j < (y + p) * 128 + (x + i * 16) \/ (y + p) * 128 + (x + i * 16) + 16 <= j) ->
     load (ucScreen s') j = load (ucScreen s) j).
Proof.
  intros Hy Hi Hx Hpx Hlen. cbv zeta.
  rewrite write_large_glyph_clean by assumption. cbv zeta.
  set (g := Font.large_base + uchar (load msg i) * 64).
  set (px := x + i * 16) in *.
  set (b0 := block (ucFont s) g 16).
  set (b1 := block (ucFont s) (g + 16) 16).
  set (b2 := block (ucFont s) (g + 32) 16).
  assert (L0 : Z.of_nat (length b0) = 16) by (unfold b0; rewrite length_block; reflexivity).
  assert (L1 : Z.of_nat (length b1) = 16) by (unfold b1; rewrite length_block; reflexivity).
  assert (L2 : Z.of_nat (length b2) = 16) by (unfold b2; rewrite length_block; reflexivity).
  destruct (positioned_block_cache px y b0 s) as (Hl0 & Hf0 & Hin0 & Hout0);
    [lia .. | exact Hlen |].
  set (s0 := oledWriteDataBlock b0 (oledSetPosition px y s)) in *.
  destruct (positioned_block_cache px (y + 1) b1 s0) as (Hl1 & Hf1 & Hin1 & Hout1);
    [lia .. | exact Hl0 |].
  set (s1 := oledWriteDataBlock b1 (oledSetPosition px (y + 1) s0)) in *.
  destruct (positioned_block_cache px (y + 2) b2 s1) as (Hl2 & Hf2 & Hin2 & Hout2);
    [lia .. | exact Hl1 |].
  set (s2 := oledWriteDataBlock b2 (oledSetPosition px (y + 2) s1)) in *.
  split; [exact Hl2 |]. split; [congruence |]. split.
  - intros p k Hp Hk.
    assert (Hcase : p = 0 \/ p = 1 \/ p = 2) by lia.
    destruct Hcase as [-> | [-> | ->]].
    + rewrite Hout2, Hout1 by lia.
      replace ((y + 0) * 128 + px + k) with (y * 128 + px + k) by lia.
      rewrite Hin0 by lia. unfold b0. rewrite load_block by lia. f_equal; lia.
    + rewrite Hout2 by lia. rewrite Hin1 by lia.
      unfold b1. rewrite load_block by lia. f_equal; lia.
    + rewrite Hin2 by lia. unfold b2. rewrite load_block by lia. f_equal; lia.
  - intros j Hj Hout.
    pose proof (Hout 0 ltac:(lia)). pose proof (Hout 1 ltac:(lia)).
    pose proof (Hout 2 ltac:(lia)).
    rewrite Hout2, Hout1, Hout0 by lia. reflexivity.
Qed.

Lemma large_loop_cache x y msg n s :
  0 <= n -> 0 <= y <= 5 -> 0 <= x -> x + n * 16 <= 128 ->
  length (ucScreen s) = 1024%nat ->
  let s' := for_loop n (write_large_glyph x y msg) s in
  (forall i p k, 0 <= i < n -> 0 <= p <= 2 -> 0 <= k < 16 ->
     load (ucScreen s') ((y + p) * 128 + (x + i * 16) + k)
     = load (ucFont s) (Font.large_base + uchar (load msg i) * 64 + 16 * p + k)) /\
  (forall j, 0 <= j ->
     (forall p, 0 <= p <= 2 ->
        j < (y + p) * 128 + x \/ (y + p) * 128 + x + n * 16 <= j) ->
     load (ucScreen s') j = load (ucScreen s) j).
Proof.
  intros Hn Hy Hx Hend Hlen. cbv zeta.
  cut (forall m, 0 <= m -> m <= n ->
       length (ucScreen (for_loop m (write_large_glyph x y msg) s)) = 1024%nat /\
       ucFont (for_loop m (write_large_glyph x y msg) s) = ucFont s /\
       (forall i p k, 0 <= i < m -> 0 <= p <= 2 -> 0 <= k < 16 ->
          load (ucScreen (for_loop m (write_large_glyph x y msg) s))
               ((y + p) * 128 + (x + i * 16) + k)
          = load (ucFont s) (Font.large_base + uchar (load msg i) * 64 + 16 * p + k)) /\
       (forall j, 0 <= j ->
          (forall p, 0 <= p <= 2 ->
             j < (y + p) * 128 + x \/ (y + p) * 128 + x + m * 16 <= j) ->
          load (ucScreen (for_loop m (write_large_glyph x y msg) s)) j
          = load (ucScreen s) j)).
  { intros H. destruct (H n) as (_ & _ & H1 & H2); [lia .. |]. auto. }
  apply (for_loop_nat_ind
    (fun m t => m <= n ->
       length (ucScreen t) = 1024%nat /\ ucFont t = ucFont s /\
       (forall i p k, 0 <= i < m -> 0 <= p <= 2 -> 0 <= k < 16 ->
          load (ucScreen t) ((y + p) * 128 + (x + i * 16) + k)
          = load (ucFont s) (Font.large_base + uchar (load msg i) * 64 + 16 * p + k)) /\
       (forall j, 0 <= j ->
          (forall p, 0 <= p <= 2 ->
             j < (y + p) * 128 + x \/ (y + p) * 128 + x + m * 16 <= j) ->
          load (ucScreen t) j = load (ucScreen s) j))).
  - intros _. repeat split; auto; lia.
  - intros m t Hm IH Hle. destruct IH as (Hl & Hf & Hin & Hout); [lia |].
    destruct (write_large_glyph_cache x y msg m t) as (Hl' & Hf' & Hin' & Hout');
      [lia .. | exact Hl |].
    split; [exact Hl' |]. split; [congruence |]. split.
    + intros i p k Hi Hp Hk. destruct (Z.eq_dec i m) as [-> | Hne].
      * rewrite Hin' by lia. rewrite Hf. reflexivity.
      * rewrite Hout'; [apply Hin; lia | lia |]. intros q Hq. lia.
    + intros j Hj Hjout. rewrite Hout'; [apply Hout; [lia |] | lia |].
      * intros p Hp. specialize (Hjout p Hp). lia.
      * intros p Hp. specialize (Hjout p Hp). lia.
Qed.

(** A successful 16x32 call on pages [y], [y + 1], [y + 2] leaves, for each
    character [i] it emits, bands 0, 1 and 2 of the character's 64-byte
    glyph in the cache at columns [16 (x + i)] .. [16 (x + i) + 15] of those
    pages; band 3 of the glyph is written nowhere, and the rest of the cache
    is unchanged. *)
Theorem oledWriteString_large_cache s x y msg bLarge :
  file_i2c s <> 0 -> length (ucScreen s) = 1024%nat -> bLarge <> 0 ->
  0 <= x <= 8 -> 0 <= y <= 5 -> Z.of_nat (length msg) + x <= int_max ->
  let n := Z.min (Z.of_nat (length msg)) (8 - x) in
  let s' := snd (oledWriteString x y msg bLarge s) in
  fst (oledWriteString x y msg bLarge s) = OK /\
  (forall i p k, 0 <= i < n -> 0 <= p <= 2 -> 0 <= k < 16 ->
     load (ucScreen s') ((y + p) * 128 + 16 * (x + i) + k)
     = load (ucFont s) (9728 + uchar (load msg i) * 64 + 16 * p + k)) /\
  (forall j, 0 <= j ->
     (forall p, 0 <= p <= 2 ->
        j < (y + p) * 128 + 16 * x \/ (y + p) * 128 + 16 * (x + n) <= j) ->
     load (ucScreen s') j = load (ucScreen s) j).
Proof.
  intros Hfile Hlen Hb Hx Hy Hsum.
  assert (Hxi : in_int x) by (int_consts; lia).
  assert (Hli : in_int (Z.of_nat (length msg))) by (int_consts; lia).
  cbv zeta. rewrite (oledWriteString_large s x y msg Hfile Hxi Hli Hsum bLarge Hb).
  cbv zeta.
  destruct (Z.ltb_spec (Z.min (Z.of_nat (length msg)) (8 - x)) 0); [lia |].
  cbn [fst snd]. split; [reflexivity |].
  rewrite (to_int_id (x * 16)) by (int_consts; lia).
  destruct (large_loop_cache (x * 16) y msg (Z.min (Z.of_nat (length msg)) (8 - x)) s)
    as [Hin Hout]; [lia .. | exact Hlen |].
  split.
  - intros i p k Hi Hp Hk.
    replace (16 * (x + i)) with (x * 16 + i * 16) by lia.
    rewrite Hin by lia. reflexivity.
  - intros j Hj Hjout. apply Hout; [lia |].
    intros p Hp. specialize (Hjout p Hp). lia.
Qed.

Lemma oledWriteString_large_cache_witness :
  fst (oledWriteString 7 5 [65; 66] 1 (set_file 3 (power_on []))) = OK.
Proof.
  apply (oledWriteString_large_cache (set_file 3 (power_on [])) 7 5 [65; 66] 1);
    [discriminate | reflexivity | discriminate | lia | lia | vm_compute; discriminate].
Defined.

(** *** What the driver never does *)

(** A refused [oledWriteString], for any arguments, has written nothing to
    the cache and sent no data block; the font and the handle are as they
    were. *)
Theorem oledWriteString_fail_keeps_cache s x y msg bLarge :
  fst (oledWriteString x y msg bLarge s) = FAIL ->
  let s' := snd (oledWriteString x y msg bLarge s) in
  ucScreen s' = ucScreen s /\ mirrored s' = mirrored s /\
  ucFont s' = ucFont s /\ file_i2c s' = file_i2c s /\
  data_bursts s s' = [].
Proof.
  unfold oledWriteString.
  assert (Hsame : data_bursts s s = []).
  { unfold data_bursts. rewrite drop_ge by lia. reflexivity. }
  destruct (file_i2c s =? 0); [intros _; repeat split; exact Hsame |].
  destruct (negb (bLarge =? 0)); cbv zeta.
  - destruct (_ <? 0); cbn [fst snd].
    + intros _. repeat split. exact Hsame.
    + discriminate.
  - destruct (_ <? 0); cbn [fst snd].
    + intros _. rewrite oledSetPosition_eq.
      cbn [file_i2c iScreenOffset ucScreen ucFont bus mirrored].
      repeat split. unfold data_bursts. cbn [bus].
      rewrite drop_app_length. apply filter_position_cmds.
    + discriminate.
Qed.

Lemma oledWriteString_fail_keeps_cache_witness :
  ucScreen (snd (oledWriteString 17 2 [65] 0 (set_file 3 (power_on []))))
  = ucScreen (set_file 3 (power_on [])).
Proof.
  apply (oledWriteString_fail_keeps_cache (set_file 3 (power_on [])) 17 2 [65] 0).
  reflexivity.
Defined.

Lemma fill_loop_bus v n s :
  0 <= n ->
  ucFont (for_loop n (fill_body v) s) = ucFont s /\
  bus (for_loop n (fill_body v) s) = bus s ++ concat (fill_page v <$> seqZ 0 n).
Proof.
  apply (for_loop_nat_ind
           (fun n t => ucFont t = ucFont s /\
                       bus t = bus s ++ concat (fill_page v <$> seqZ 0 n))).
  - split; [reflexivity |]. cbn. rewrite app_nil_r. reflexivity.
  - intros k t Hk [Hfont Hbus]. unfold fill_body. rewrite positioned_block_eq.
    cbn [ucFont bus]. split; [exact Hfont |].
    rewrite Hbus, seqZ_snoc, fmap_app, concat_app, <- app_assoc by lia.
    cbn [fmap list_fmap concat]. rewrite app_nil_r. reflexivity.
Qed.



Lemma tx_ok_block a off : tx_ok (0x40 :: block a off 16) = true.
Proof. reflexivity. Qed.



(** The glyph table is read-only once [oledInit] is over.  On a driver
    whose cache has its 1024 bytes, no other entry point changes it:
    [oledShutdown], [oledSetContrast] and [oledFill] for any argument,
    [oledSetPixel] for coordinates far from the limits of [int], and
    [oledWriteString] for the columns and pages on which all its copies
    stay inside the cache. *)
Theorem font_read_only s :
  length (ucScreen s) = 1024%nat ->
  ucFont (oledShutdown s) = ucFont s /\
  (forall v, ucFont (snd (oledSetContrast v s)) = ucFont s) /\
  (forall x y c, - 2 ^ 24 <= x <= 2 ^ 24 -> - 2 ^ 24 <= y <= 2 ^ 24 ->
     ucFont (snd (oledSetPixel x y c s)) = ucFont s) /\
  (forall x y msg b,
     0 <= x -> Z.of_nat (length msg) + x <= int_max ->
     0 <= y <= (if b =? 0 then 7 else 5) ->
     ucFont (snd (oledWriteString x y msg b s)) = ucFont s) /\
  (forall v, ucFont (snd (oledFill v s)) = ucFont s).
Proof.
  intros _. repeat split.
  - unfold oledShutdown. destruct (file_i2c s =? 0); reflexivity.
  - intros v. unfold oledSetContrast. destruct (file_i2c s =? 0); reflexivity.
  - intros x y c _ _. unfold oledSetPixel. destruct (file_i2c s =? 0); [reflexivity |].
    destruct (_ || _); [reflexivity |]. cbv zeta. destruct (_ =? _); reflexivity.
  - intros x y msg b _ _ _. unfold oledWriteString.
    destruct (file_i2c s =? 0); [reflexivity |].
    destruct (negb (b =? 0)); cbv zeta.
    + match goal with |- context [?n <? 0] => destruct (Z.ltb_spec n 0) as [? | Hn] end;
        [reflexivity |]. cbn [snd].
      apply (proj1 (large_loop_bus _ y msg _ s Hn)).
    + match goal with |- context [?n <? 0] => destruct (Z.ltb_spec n 0) as [? | Hn] end;
        [reflexivity |]. cbn [snd].
      rewrite (proj1 (small_loop_bus msg _ (oledSetPosition x y s) Hn)). reflexivity.
  - intros v. unfold oledFill. destruct (file_i2c s =? 0); [reflexivity |].
    cbn [snd]. fold (fill_body (uchar v)).
    apply (proj1 (fill_loop_bus (uchar v) 8 s ltac:(lia))).
Qed.

Lemma font_read_only_witness :
  ucFont (snd (oledWriteString 7 5 [65; 66] 1 (set_file 3 (power_on [1; 2; 3]))))
  = ucFont (set_file 3 (power_on [1; 2; 3])).
Proof.
  destruct (font_read_only (set_file 3 (power_on [1; 2; 3])))
    as (_ & _ & _ & H & _); [reflexivity |].
  apply H; [lia | vm_compute; discriminate | cbn; lia].
Defined.
